(** * Landlock ruleset builder of firejail (src/firejail/landlock.c)

    A shallow embedding of [landlock.c]: the kernel probe [old_kernel], the
    four per-class helpers, the baseline policy [ll_basic_system], the
    directive walk and commit of [ll_restrict], and [ll_add_profile].

    The C code talks to the operating system all the time.  Every call that
    leaves the process (system calls, libc allocation) is answered by an
    oracle that may look at the whole history of earlier calls, and is
    recorded in a trace, so that statements such as "no rule is added" or
    "the descriptor is closed" are statements about the recorded calls. *)

From Stdlib Require Import ZArith List String Ascii Bool Lia.
From Stdlib Require Import DecimalString.
Import ListNotations.

Local Open Scope string_scope.
Local Open Scope list_scope.
Local Open Scope Z_scope.

(** ** Constants of <linux/landlock.h>

    The header is not part of the repository: the thirteen access flags the
    code names are taken as parameters. *)

Class LandlockUapi : Type := {
  LANDLOCK_ACCESS_FS_EXECUTE : Z;
  LANDLOCK_ACCESS_FS_WRITE_FILE : Z;
  LANDLOCK_ACCESS_FS_READ_FILE : Z;
  LANDLOCK_ACCESS_FS_READ_DIR : Z;
  LANDLOCK_ACCESS_FS_REMOVE_DIR : Z;
  LANDLOCK_ACCESS_FS_REMOVE_FILE : Z;
  LANDLOCK_ACCESS_FS_MAKE_CHAR : Z;
  LANDLOCK_ACCESS_FS_MAKE_DIR : Z;
  LANDLOCK_ACCESS_FS_MAKE_REG : Z;
  LANDLOCK_ACCESS_FS_MAKE_SOCK : Z;
  LANDLOCK_ACCESS_FS_MAKE_FIFO : Z;
  LANDLOCK_ACCESS_FS_MAKE_BLOCK : Z;
  LANDLOCK_ACCESS_FS_MAKE_SYM : Z
}.

(** The C operator [|] on the access masks. *)
Infix "|'" := Z.lor (at level 50, left associativity).

(** ** The process and its environment *)

(** The two fields of [struct utsname] the code reads. *)
Record utsname : Type := { release : string; version : string }.

(** Calls that leave the process.  Arguments that the code passes as fixed
    constants are part of the constructor's meaning:
    [open] is always called with [O_PATH | O_CLOEXEC], [access] with [F_OK],
    [prctl] with [PR_SET_NO_NEW_PRIVS, 1, 0, 0, 0], and [ll_add_rule] with
    [LANDLOCK_RULE_PATH_BENEATH] and flags [0]. *)
Inductive call : Type :=
| SysCreateRuleset (handled_access_fs : Z) (flags : Z)
| SysAddRule (fd : Z) (parent_fd : Z) (allowed_access : Z)
| SysRestrictSelf (ruleset_fd : Z) (flags : Z)
| SysOpen (path : string)
| SysClose (fd : Z)
| SysAccess (path : string)
| SysPrctlNoNewPrivs
| SysGetuid
| LibAsprintf (s : string)
| LibMalloc
| LibMemset
| LibStrdup (s : string)
| LibFree (s : string).

Inductive event : Type :=
| EvUname (rv : Z) (u : utsname)
| EvCall (c : call) (r : Z)
| EvStderr (msg : string)
| EvErrExit (msg : string).

Definition trace_t : Type := list event.

(** The environment: what the next call returns, given everything that
    happened so far.  [k_call] is the [int] the C code sees; for [LibMalloc]
    and [LibStrdup] it is [0] exactly when the libc returns [NULL]; what it
    gives for [LibMemset] and [LibFree] is never looked at.  [k_stray] is
    what a read behind the terminating NUL of a string finds there, read as
    a C string: the allocator decides, not the program. *)
Record kernel : Type := {
  k_uname : trace_t -> Z * utsname;
  k_call : trace_t -> call -> Z;
  k_stray : trace_t -> string -> string
}.

(** The global [cfg] as far as this file uses it, and the file's own
    [static int rset_fd].  [cfg_lprofile] is the linked list [cfg.lprofile],
    head first. *)
Record world : Type := {
  rset_fd : Z;
  cfg_homedir : option string;
  cfg_lprofile : list string;
  trace : trace_t
}.

Definition log (e : event) (w : world) : world :=
  {| rset_fd := rset_fd w; cfg_homedir := cfg_homedir w;
     cfg_lprofile := cfg_lprofile w; trace := trace w ++ [e] |}.

Definition with_rset_fd (fd : Z) (w : world) : world :=
  {| rset_fd := fd; cfg_homedir := cfg_homedir w;
     cfg_lprofile := cfg_lprofile w; trace := trace w |}.

Definition with_lprofile (l : list string) (w : world) : world :=
  {| rset_fd := rset_fd w; cfg_homedir := cfg_homedir w;
     cfg_lprofile := l; trace := trace w |}.

Definition logs (es : list event) (w : world) : world :=
  fold_left (fun w e => log e w) es w.

(** How a C function can end: it returns, the process exits, or an [assert]
    aborts it. *)
Inductive outcome (A : Type) : Type :=
| Ret (a : A) (w : world)
| Exit (code : Z) (w : world)
| Abort (w : world).

Arguments Ret {A} a w.
Arguments Exit {A} code w.
Arguments Abort {A} w.

Definition M (A : Type) : Type := world -> outcome A.

Definition ret {A} (a : A) : M A := fun w => Ret a w.

Definition bind {A B} (m : M A) (k : A -> M B) : M B :=
  fun w =>
    match m w with
    | Ret a w' => k a w'
    | Exit c w' => Exit c w'
    | Abort w' => Abort w'
    end.

Declare Scope monad_scope.
Delimit Scope monad_scope with monad.
Notation "x <- m ;; k" := (bind m (fun x => k))
  (at level 61, m at next level, right associativity) : monad_scope.
Notation "' pat <- m ;; k" := (bind m (fun x => match x with pat => k end))
  (at level 61, pat pattern, m at next level, right associativity) : monad_scope.
Notation "m ;;; k" := (bind m (fun _ => k))
  (at level 61, right associativity) : monad_scope.
Local Open Scope monad_scope.

Definition exit {A} (code : Z) : M A := fun w => Exit code w.
Definition abort {A} : M A := fun w => Abort w.

Definition fprintf_stderr (msg : string) : M unit :=
  fun w => Ret tt (log (EvStderr msg) w).

(** Modelled from the spec: [errExit] is a macro of firejail.h, which is not
    under src/.  Section 4.1 and 7 call these paths fatal and
    process-terminating: the message is reported and the process exits. *)
Definition errExit {A} (msg : string) : M A :=
  fun w => Exit 1 (log (EvErrExit msg) w).

Definition get_rset_fd : M Z := fun w => Ret (rset_fd w) w.
Definition set_rset_fd (fd : Z) : M unit := fun w => Ret tt (with_rset_fd fd w).

Definition nl : string := String (ascii_of_nat 10) EmptyString.

(** ** [sscanf(s, "%u.%u", &major, &minor)] *)

Module Scan.

Definition isspace (c : ascii) : bool :=
  match nat_of_ascii c with
  | 32%nat | 9%nat | 10%nat | 11%nat | 12%nat | 13%nat => true
  | _ => false
  end.

Definition digit_val (c : ascii) : option Z :=
  let n := Z.of_nat (nat_of_ascii c) in
  if (48 <=? n) && (n <=? 57) then Some (n - 48) else None.

Fixpoint skip_space (s : string) : string :=
  match s with
  | String c s' => if isspace c then skip_space s' else s
  | EmptyString => s
  end.

Fixpoint scan_digits (acc : Z) (s : string) : Z * string :=
  match s with
  | String c s' =>
      match digit_val c with
      | Some d => scan_digits (acc * 10 + d) s'
      | None => (acc, s)
      end
  | EmptyString => (acc, s)
  end.

(** The conversion of the digits, as glibc on a 64-bit system does it: the
    value is taken as by [strtoul], which gives [ULONG_MAX] when the digits
    do not fit in 64 bits and negates modulo 2^64 after a minus sign. *)
Definition strtoul (neg : bool) (v : Z) : Z :=
  if 2 ^ 64 <=? v then 2 ^ 64 - 1
  else (if neg then - v else v) mod 2 ^ 64.

(** What is stored in an [unsigned]: the low 32 bits. *)
Definition to_unsigned (z : Z) : Z := z mod 2 ^ 32.

(** One [%u]: white space is skipped, a sign is accepted, at least one
    digit is required.  Gives the converted value and the unread rest. *)
Definition scan_u (s : string) : option (Z * string) :=
  let s1 := skip_space s in
  let '(neg, s2) :=
    match s1 with
    | String "-"%char t => (true, t)
    | String "+"%char t => (false, t)
    | _ => (false, s1)
    end in
  match s2 with
  | String c _ =>
      match digit_val c with
      | Some _ =>
          let '(v, rest) := scan_digits 0 s2 in
          Some (to_unsigned (strtoul neg v), rest)
      | None => None
      end
  | EmptyString => None
  end.

(** [Some (major, minor)] exactly when [sscanf] returns 2. *)
Definition sscanf_u_dot_u (s : string) : option (Z * Z) :=
  match scan_u s with
  | Some (major, String "."%char rest) =>
      match scan_u rest with
      | Some (minor, _) => Some (major, minor)
      | None => None
      end
  | _ => None
  end.

End Scan.

(** ** landlock.c *)

Section Landlock.

Context {uapi : LandlockUapi}.
Variable env : kernel.

Definition uname : M (Z * utsname) :=
  fun w =>
    let '(rv, u) := k_uname env (trace w) in
    Ret (rv, u) (log (EvUname rv u) w).

Definition syscall (c : call) : M Z :=
  fun w =>
    let r := k_call env (trace w) c in
    Ret r (log (EvCall c r) w).

(** [(major << 8) + minor] on [unsigned]. *)
Definition version_code (major minor : Z) : Z :=
  (Z.shiftl major 8 mod 2 ^ 32 + minor) mod 2 ^ 32.

Definition min_version_code : Z := Z.shiftl 6 8 + 1.

Definition old_kernel : M Z :=
  '(rv, u) <- uname ;;
  if negb (rv =? 0) then errExit "uname"
  else
    match Scan.sscanf_u_dot_u (release u) with
    | None =>
        fprintf_stderr ("Error: cannot extract Linux kernel version: "
                          ++ version u ++ nl)%string ;;;
        exit 1
    | Some (major, minor) =>
        let version := version_code major minor in
        if version <? min_version_code then ret 1 else ret 0
    end.

Definition ll_get_fd : M Z := get_rset_fd.

Definition ll_create_ruleset (handled_access_fs : Z) (flags : Z) : M Z :=
  syscall (SysCreateRuleset handled_access_fs flags).

Definition ll_add_rule (fd : Z) (parent_fd : Z) (allowed_access : Z) : M Z :=
  syscall (SysAddRule fd parent_fd allowed_access).

Definition landlock_restrict_self (ruleset_fd : Z) (flags : Z) : M Z :=
  syscall (SysRestrictSelf ruleset_fd flags).

Definition full_ruleset_mask : Z :=
  LANDLOCK_ACCESS_FS_READ_FILE |' LANDLOCK_ACCESS_FS_READ_DIR |' LANDLOCK_ACCESS_FS_WRITE_FILE |'
  LANDLOCK_ACCESS_FS_REMOVE_FILE |' LANDLOCK_ACCESS_FS_REMOVE_DIR |' LANDLOCK_ACCESS_FS_MAKE_CHAR |' LANDLOCK_ACCESS_FS_MAKE_DIR |'
  LANDLOCK_ACCESS_FS_MAKE_REG |' LANDLOCK_ACCESS_FS_MAKE_SOCK |' LANDLOCK_ACCESS_FS_MAKE_FIFO |' LANDLOCK_ACCESS_FS_MAKE_BLOCK |'
  LANDLOCK_ACCESS_FS_MAKE_SYM |' LANDLOCK_ACCESS_FS_EXECUTE.

Definition ll_create_full_ruleset : M Z :=
  ll_create_ruleset full_ruleset_mask 0.

Definition warn_not_enabled : string :=
  ("Warning: Landlock not enabled, a 6.1 or newer Linux kernel is required"
     ++ nl)%string.

(** [target.allowed_access] of [ll_read], [ll_write], [ll_special] and
    [ll_exec]. *)
Definition read_access : Z :=
  LANDLOCK_ACCESS_FS_READ_FILE |' LANDLOCK_ACCESS_FS_READ_DIR.

Definition write_access : Z :=
  LANDLOCK_ACCESS_FS_WRITE_FILE |' LANDLOCK_ACCESS_FS_REMOVE_FILE |' LANDLOCK_ACCESS_FS_REMOVE_DIR |'
  LANDLOCK_ACCESS_FS_MAKE_CHAR |' LANDLOCK_ACCESS_FS_MAKE_DIR |' LANDLOCK_ACCESS_FS_MAKE_REG |'
  LANDLOCK_ACCESS_FS_MAKE_SYM.

Definition special_access : Z :=
  LANDLOCK_ACCESS_FS_MAKE_SOCK |' LANDLOCK_ACCESS_FS_MAKE_FIFO |' LANDLOCK_ACCESS_FS_MAKE_BLOCK.

Definition exec_access : Z := LANDLOCK_ACCESS_FS_EXECUTE.

(** [if (rset_fd == -1) rset_fd = ll_create_full_ruleset();] *)
Definition ensure_ruleset : M unit :=
  fd <- get_rset_fd ;;
  if fd =? -1 then (r <- ll_create_full_ruleset ;; set_rset_fd r) else ret tt.

(** The body of [ll_read], [ll_write], [ll_special] and [ll_exec]: the four
    functions are the same text up to [target.allowed_access]. *)
Definition ll_helper (allowed_access : Z) (allowed_path : string) : M Z :=
  old <- old_kernel ;;
  if negb (old =? 0) then
    fprintf_stderr warn_not_enabled ;;; ret 1
  else
    ensure_ruleset ;;;
    allowed_fd <- syscall (SysOpen allowed_path) ;;
    fd <- get_rset_fd ;;
    result <- ll_add_rule fd allowed_fd allowed_access ;;
    syscall (SysClose allowed_fd) ;;;
    ret result.

Definition ll_read : string -> M Z := ll_helper read_access.
Definition ll_write : string -> M Z := ll_helper write_access.
Definition ll_special : string -> M Z := ll_helper special_access.
Definition ll_exec : string -> M Z := ll_helper exec_access.

Definition err_basic : string :=
  ("Error: cannot set the basic Landlock filesystem" ++ nl)%string.

Definition home_access : Z :=
  LANDLOCK_ACCESS_FS_READ_FILE |' LANDLOCK_ACCESS_FS_READ_DIR |'
  LANDLOCK_ACCESS_FS_WRITE_FILE |' LANDLOCK_ACCESS_FS_REMOVE_FILE |'
  LANDLOCK_ACCESS_FS_REMOVE_DIR |' LANDLOCK_ACCESS_FS_MAKE_CHAR |'
  LANDLOCK_ACCESS_FS_MAKE_DIR |' LANDLOCK_ACCESS_FS_MAKE_REG |'
  LANDLOCK_ACCESS_FS_MAKE_SYM.

(** [c1 || c2 || ... || cn] as C evaluates it: left to right, stopping at
    the first call that returns non-zero. *)
Fixpoint or_chain (cs : list (M Z)) : M bool :=
  match cs with
  | [] => ret false
  | c :: rest =>
      r <- c ;;
      if negb (r =? 0) then ret true else or_chain rest
  end.

(** The operands of the [||] chain of [ll_basic_system], in source order
    ("/bin" is there twice). *)
Definition basic_chain (rundir : string) : list (M Z) :=
  [ ll_read "/";
    ll_special "/";
    ll_write "/tmp";
    ll_write "/dev";
    ll_write "/run/shm";
    ll_write rundir;
    ll_exec "/opt";
    ll_exec "/bin";
    ll_exec "/sbin";
    ll_exec "/bin";
    ll_exec "/lib";
    ll_exec "/lib32";
    ll_exec "/libx32";
    ll_exec "/lib64";
    ll_exec "/usr/bin";
    ll_exec "/usr/sbin";
    ll_exec "/usr/games";
    ll_exec "/usr/lib";
    ll_exec "/usr/lib32";
    ll_exec "/usr/libx32";
    ll_exec "/usr/lib64";
    ll_exec "/usr/local/bin";
    ll_exec "/usr/local/sbin";
    ll_exec "/usr/local/games";
    ll_exec "/usr/local/lib";
    ll_exec "/run/firejail" ].

(** An [int] argument of [printf]: the low 32 bits, read as signed. *)
Definition to_int (z : Z) : Z := (z + 2 ^ 31) mod 2 ^ 32 - 2 ^ 31.

(** ["/run/user/%d"] *)
Definition rundir_of (uid : Z) : string :=
  ("/run/user/" ++ NilZero.string_of_int (Z.to_int (to_int uid)))%string.

(** Lines 189-217: the chain and its one error line. *)
Definition basic_rules (rundir : string) : M unit :=
  failed <- or_chain (basic_chain rundir) ;;
  if failed then fprintf_stderr err_basic else ret tt.

Definition ll_basic_system : M unit :=
  old <- old_kernel ;;
  if negb (old =? 0) then
    fprintf_stderr warn_not_enabled ;;; ret tt
  else
    ensure_ruleset ;;;
    fun w =>
      match cfg_homedir w with
      | None => Abort w
      | Some homedir =>
          (home_fd <- syscall (SysOpen homedir) ;;
           fd <- get_rset_fd ;;
           r <- ll_add_rule fd home_fd home_access ;;
           (if negb (r =? 0) then fprintf_stderr err_basic else ret tt) ;;;
           syscall (SysClose home_fd) ;;;
           uid <- syscall SysGetuid ;;
           let rundir := rundir_of uid in
           a <- syscall (LibAsprintf rundir) ;;
           if a =? -1 then errExit "asprintf"
           else
             basic_rules rundir ;;;
             syscall (LibFree rundir) ;;;
             ret tt) w
      end.

(** [ptr->data + n]: a string again as long as it does not point past the
    terminating NUL. *)
Definition str_offset (n : nat) (s : string) : option string :=
  if (n <=? String.length s)%nat
  then Some (substring n (String.length s - n) s)
  else None.

(** The [if / else if] cascade of [ll_restrict]: the helper and the
    [fname] pointer chosen for one entry; [None] is [assert(0)]. *)
Definition dispatch (data : string)
  : option (option string * (string -> M Z)) :=
  if prefix "landlock.read" data then Some (str_offset 14 data, ll_read)
  else if prefix "landlock.write" data then Some (str_offset 15 data, ll_write)
  else if prefix "landlock.special" data then Some (str_offset 17 data, ll_special)
  else if prefix "landlock.execute" data then Some (str_offset 17 data, ll_exec)
  else None.

Definition err_add_rule (fname : string) : string :=
  ("Error: failed to add Landlock rule for " ++ fname ++ nl)%string.

(** Lines 252-257: one turn of the loop once [fname] and [fnc] are chosen,
    followed by the rest of the loop. *)
Definition walk_entry (fnc : string -> M Z) (fname : string) (rest : M unit)
  : M unit :=
  a <- syscall (SysAccess fname) ;;
  (if a =? 0 then
     r <- fnc fname ;;
     if negb (r =? 0) then fprintf_stderr (err_add_rule fname)
     else ret tt
   else ret tt) ;;;
  rest.

(** The [while (ptr)] loop, on the list that starts at [ptr].  Nothing
    checks that [fname] points inside the string: for an entry that is
    exactly a keyword it points behind the terminating NUL, and the loop
    goes on with whatever is read there. *)
Fixpoint ll_restrict_walk (ptr : list string) : M unit :=
  match ptr with
  | [] => ret tt
  | data :: next =>
      match dispatch data with
      | None => abort
      | Some (Some fname, fnc) =>
          walk_entry fnc fname (ll_restrict_walk next)
      | Some (None, fnc) =>
          fun w =>
            walk_entry fnc (k_stray env (trace w) data) (ll_restrict_walk next) w
      end
  end.

(** Lines 261-270: the commit. *)
Definition ll_restrict_commit (flags : Z) : M Z :=
  fd <- get_rset_fd ;;
  if fd =? -1 then ret 0
  else
    syscall SysPrctlNoNewPrivs ;;;
    result <- landlock_restrict_self fd flags ;;
    if negb (result =? 0) then ret result
    else syscall (SysClose fd) ;;; ret 0.

Definition ll_restrict (flags : Z) : M Z :=
  old <- old_kernel ;;
  if negb (old =? 0) then
    fprintf_stderr warn_not_enabled ;;; ret 0
  else
    (fun w => ll_restrict_walk (cfg_lprofile w) w) ;;;
    ll_restrict_commit flags.

Definition ll_add_profile (data : string) : M unit :=
  old <- old_kernel ;;
  if negb (old =? 0) then ret tt
  else
    p <- syscall LibMalloc ;;
    if p =? 0 then errExit "malloc"
    else
      syscall LibMemset ;;;
      d <- syscall (LibStrdup data) ;;
      if d =? 0 then errExit "strdup"
      else fun w => Ret tt (with_lprofile (data :: cfg_lprofile w) w).

(** Configuration loading: one [ll_add_profile] per directive, in order. *)
Fixpoint add_profiles (ds : list string) : M unit :=
  match ds with
  | [] => ret tt
  | d :: rest => ll_add_profile d ;;; add_profiles rest
  end.

End Landlock.

(** ** A concrete environment

    The flag values of the kernel's UAPI header, and a kernel that reports a
    given release, hands out descriptor 3 for the ruleset and 4 for every
    path it can open, and refuses any call on a descriptor that was closed
    before. *)

#[export] Instance linux_uapi : LandlockUapi := {|
  LANDLOCK_ACCESS_FS_EXECUTE := Z.shiftl 1 0;
  LANDLOCK_ACCESS_FS_WRITE_FILE := Z.shiftl 1 1;
  LANDLOCK_ACCESS_FS_READ_FILE := Z.shiftl 1 2;
  LANDLOCK_ACCESS_FS_READ_DIR := Z.shiftl 1 3;
  LANDLOCK_ACCESS_FS_REMOVE_DIR := Z.shiftl 1 4;
  LANDLOCK_ACCESS_FS_REMOVE_FILE := Z.shiftl 1 5;
  LANDLOCK_ACCESS_FS_MAKE_CHAR := Z.shiftl 1 6;
  LANDLOCK_ACCESS_FS_MAKE_DIR := Z.shiftl 1 7;
  LANDLOCK_ACCESS_FS_MAKE_REG := Z.shiftl 1 8;
  LANDLOCK_ACCESS_FS_MAKE_SOCK := Z.shiftl 1 9;
  LANDLOCK_ACCESS_FS_MAKE_FIFO := Z.shiftl 1 10;
  LANDLOCK_ACCESS_FS_MAKE_BLOCK := Z.shiftl 1 11;
  LANDLOCK_ACCESS_FS_MAKE_SYM := Z.shiftl 1 12
|}.

Definition call_eqb_close (fd : Z) (e : event) : bool :=
  match e with
  | EvCall (SysClose fd') r => (fd' =? fd) && (r =? 0)
  | _ => false
  end.

Definition was_closed (fd : Z) (t : trace_t) : bool :=
  existsb (call_eqb_close fd) t.

(** [exists_path p] says whether [p] is on the file system. *)
Definition test_kernel (rel : string) (exists_path : string -> bool) : kernel := {|
  k_uname := fun _ => (0, {| release := rel; version := "#1 SMP" |});
  k_call := fun t c =>
    match c with
    | SysCreateRuleset _ _ => 3
    | SysAddRule fd parent _ =>
        if (fd =? 3) && negb (was_closed 3 t) && (0 <=? parent) then 0 else -1
    | SysRestrictSelf fd _ =>
        if (fd =? 3) && negb (was_closed 3 t) then 0 else -1
    | SysOpen p => if exists_path p then 4 else -1
    | SysClose fd => if 0 <=? fd then 0 else -1
    | SysAccess p => if exists_path p then 0 else -1
    | SysPrctlNoNewPrivs => 0
    | SysGetuid => 1000
    | LibAsprintf s => Z.of_nat (String.length s)
    | LibMalloc => 1
    | LibMemset => 1
    | LibStrdup _ => 1
    | LibFree _ => 0
    end;
  k_stray := fun _ _ => ""
|}.

Definition init_world : world :=
  {| rset_fd := -1; cfg_homedir := Some "/home/user";
     cfg_lprofile := []; trace := [] |}.

(** ** Reading traces *)

Definition final {A} (o : outcome A) : world :=
  match o with
  | Ret _ w | Exit _ w | Abort w => w
  end.

Definition collect {A} (f : call -> Z -> option A) (t : trace_t) : list A :=
  flat_map (fun e => match e with
                     | EvCall c r => match f c r with Some a => [a] | None => [] end
                     | _ => []
                     end) t.

(** [(fd, parent_fd, allowed_access)] of every [ll_add_rule] call. *)
Definition added_rules : trace_t -> list (Z * Z * Z) :=
  collect (fun c _ => match c with
                      | SysAddRule fd p m => Some (fd, p, m)
                      | _ => None
                      end).

(** [(handled_access_fs, flags)] of every [ll_create_ruleset] call. *)
Definition created_rulesets : trace_t -> list (Z * Z) :=
  collect (fun c _ => match c with
                      | SysCreateRuleset m f => Some (m, f)
                      | _ => None
                      end).

(** What every [open] returned, and what every [close] was given. *)
Definition opened : trace_t -> list Z :=
  collect (fun c r => match c with SysOpen _ => Some r | _ => None end).

Definition closed : trace_t -> list Z :=
  collect (fun c _ => match c with SysClose fd => Some fd | _ => None end).

(** The paths given to [open] and to [access], in call order. *)
Definition opened_paths : trace_t -> list string :=
  collect (fun c _ => match c with SysOpen p => Some p | _ => None end).

Definition probed_paths : trace_t -> list string :=
  collect (fun c _ => match c with SysAccess p => Some p | _ => None end).

(** [(ruleset_fd, flags)] of every [landlock_restrict_self] call. *)
Definition restrict_calls : trace_t -> list (Z * Z) :=
  collect (fun c _ => match c with
                      | SysRestrictSelf fd f => Some (fd, f)
                      | _ => None
                      end).

Definition stderr_lines (t : trace_t) : list string :=
  flat_map (fun e => match e with EvStderr m => [m] | _ => [] end) t.

(** ** Access classes of the spec *)

Inductive access_class : Type := Read | Write | Special | Execute.

Inductive access_right : Type :=
| execute | write_file | read_file | read_dir | remove_dir | remove_file
| make_char | make_dir | make_reg | make_sock | make_fifo | make_block
| make_sym.

Section Classes.

Context {uapi : LandlockUapi}.

Definition flag_of (a : access_right) : Z :=
  match a with
  | execute => LANDLOCK_ACCESS_FS_EXECUTE
  | write_file => LANDLOCK_ACCESS_FS_WRITE_FILE
  | read_file => LANDLOCK_ACCESS_FS_READ_FILE
  | read_dir => LANDLOCK_ACCESS_FS_READ_DIR
  | remove_dir => LANDLOCK_ACCESS_FS_REMOVE_DIR
  | remove_file => LANDLOCK_ACCESS_FS_REMOVE_FILE
  | make_char => LANDLOCK_ACCESS_FS_MAKE_CHAR
  | make_dir => LANDLOCK_ACCESS_FS_MAKE_DIR
  | make_reg => LANDLOCK_ACCESS_FS_MAKE_REG
  | make_sock => LANDLOCK_ACCESS_FS_MAKE_SOCK
  | make_fifo => LANDLOCK_ACCESS_FS_MAKE_FIFO
  | make_block => LANDLOCK_ACCESS_FS_MAKE_BLOCK
  | make_sym => LANDLOCK_ACCESS_FS_MAKE_SYM
  end.

(** The table of section 4.2 of the spec, row by row. *)
Definition spec_class_rights (c : access_class) : list access_right :=
  match c with
  | Read => [read_file; read_dir]
  | Write => [write_file; remove_file; remove_dir; make_char; make_dir;
              make_reg; make_sym]
  | Special => [make_sock; make_fifo; make_block]
  | Execute => [execute]
  end.

(** The rights the spec lists for the ruleset's declared mask. *)
Definition spec_all_rights : list access_right :=
  [read_file; read_dir; write_file; remove_file; remove_dir; make_char;
   make_dir; make_reg; make_sock; make_fifo; make_block; make_sym; execute].

Definition mask_of (l : list access_right) : Z :=
  fold_right (fun a m => flag_of a |' m) 0 l.

(** The helper of the code for each class, and the mask it assigns to
    [target.allowed_access]. *)
Definition helper_of (env : kernel) (c : access_class) : string -> M Z :=
  match c with
  | Read => ll_read env
  | Write => ll_write env
  | Special => ll_special env
  | Execute => ll_exec env
  end.

Definition class_access (c : access_class) : Z :=
  match c with
  | Read => read_access
  | Write => write_access
  | Special => special_access
  | Execute => exec_access
  end.

(** [a] has no bit outside [m]. *)
Definition submask (a m : Z) : Prop := Z.land a m = a.

(** The flags are thirteen different single bits, [pos] giving the bit. *)
Definition single_bits (pos : access_right -> Z) : Prop :=
  (forall a, 0 <= pos a /\ flag_of a = Z.shiftl 1 (pos a))
  /\ (forall a b, pos a = pos b -> a = b).

End Classes.

(** Bit positions of the UAPI header. *)
Definition linux_pos (a : access_right) : Z :=
  match a with
  | execute => 0 | write_file => 1 | read_file => 2 | read_dir => 3
  | remove_dir => 4 | remove_file => 5 | make_char => 6 | make_dir => 7
  | make_reg => 8 | make_sock => 9 | make_fifo => 10 | make_block => 11
  | make_sym => 12
  end.

(** Version order of the spec: [(major, minor)] is at least [(6, 1)]. *)
Definition at_least_6_1 (major minor : Z) : bool :=
  (6 <? major) || ((major =? 6) && (1 <=? minor)).


(** ** States named in the statements *)

Section Views.

Context {uapi : LandlockUapi}.
Variable env : kernel.

(** The state after [if (rset_fd == -1) rset_fd = ll_create_full_ruleset();]. *)
Definition ensured (w : world) : world :=
  if rset_fd w =? -1 then
    let r := k_call env (trace w) (SysCreateRuleset full_ruleset_mask 0) in
    with_rset_fd r (log (EvCall (SysCreateRuleset full_ruleset_mask 0) r) w)
  else w.

(** The state after [open], [ll_add_rule] and [close] on [path], started in
    a state where the ruleset check is done, and what [ll_add_rule] said. *)
Definition rule_added (allowed_access : Z) (path : string) (w1 : world)
  : Z * world :=
  let pfd := k_call env (trace w1) (SysOpen path) in
  let w2 := log (EvCall (SysOpen path) pfd) w1 in
  let add := SysAddRule (rset_fd w1) pfd allowed_access in
  let r := k_call env (trace w2) add in
  let w3 := log (EvCall add r) w2 in
  let c := k_call env (trace w3) (SysClose pfd) in
  (r, log (EvCall (SysClose pfd) c) w3).

(** Every call of [cs], run in a row from [w], returns 0 and ends in [w1]. *)
Fixpoint chain_passes (cs : list (M Z)) (w w1 : world) : Prop :=
  match cs with
  | [] => w1 = w
  | c :: rest => exists w', c w = Ret 0 w' /\ chain_passes rest w' w1
  end.

(** The path [ll_restrict] takes from a directive, when it takes one. *)
Definition directive_path (data : string) : option string :=
  match dispatch env data with
  | Some (Some fname, _) => Some fname
  | _ => None
  end.

Definition directive_paths (l : list string) : list string :=
  flat_map (fun d => match directive_path d with
                     | Some f => [f]
                     | None => []
                     end) l.

(** The kernel always reports [u], and [u] passes the probe. *)
Definition steady_supported (u : utsname) : Prop :=
  (forall t, k_uname env t = (0, u))
  /\ exists major minor,
       Scan.sscanf_u_dot_u (release u) = Some (major, minor)
       /\ min_version_code <= version_code major minor.

Definition allocations_succeed : Prop :=
  forall t, k_call env t LibMalloc <> 0
            /\ forall d, k_call env t (LibStrdup d) <> 0.

(** From [w] to [w']: the directive list is the same, a set [rset_fd] is
    the same, and [paths] are the paths given to [access] on the way. *)
Definition kept (paths : list string) (w w' : world) : Prop :=
  cfg_lprofile w' = cfg_lprofile w
  /\ (rset_fd w <> -1 -> rset_fd w' = rset_fd w)
  /\ probed_paths (trace w') = probed_paths (trace w) ++ paths.

End Views.

(** ** Views for the whole-function properties *)

(** The keyword [ll_restrict] compares with, per class. *)
Definition keyword_of (c : access_class) : string :=
  match c with
  | Read => "landlock.read"
  | Write => "landlock.write"
  | Special => "landlock.special"
  | Execute => "landlock.execute"
  end.

(** Kinds of calls. *)
Definition rule_call (c : call) : bool :=
  match c with
  | SysCreateRuleset _ _ | SysAddRule _ _ _ | SysOpen _ | SysClose _ => true
  | _ => false
  end.

Definition baseline_call (c : call) : bool :=
  match c with
  | SysGetuid | LibAsprintf _ | LibFree _ => true
  | _ => rule_call c
  end.

Definition restrict_call (c : call) : bool :=
  match c with
  | SysAccess _ | SysPrctlNoNewPrivs | SysRestrictSelf _ _ => true
  | _ => rule_call c
  end.


Definition alloc_call (c : call) : bool :=
  match c with
  | LibMalloc | LibMemset | LibStrdup _ => true
  | _ => false
  end.

(** An event that is no call, or a call of the kind [ok]. *)
Definition calls_only (ok : call -> bool) (e : event) : Prop :=
  match e with
  | EvCall c _ => ok c = true
  | _ => True
  end.

(** From [w] to [w']: [cfg] is the same, and the trace grew by events that
    satisfy [P]. *)
Definition evolves (P : event -> Prop) (w w' : world) : Prop :=
  cfg_lprofile w' = cfg_lprofile w
  /\ cfg_homedir w' = cfg_homedir w
  /\ exists evs, trace w' = trace w ++ evs /\ Forall P evs.

(** However [m] ends, it ends in a state [evolves P] leads to. *)
Definition runs_within (P : event -> Prop) {A} (m : M A) : Prop :=
  forall w, evolves P w (final (m w)).


Section Baseline.

Context {uapi : LandlockUapi}.


(** What [ll_basic_system] still has to do once the home directory rule is
    dealt with: lines 185-219. *)
Definition basic_rest (env : kernel) : M unit :=
  bind (syscall env SysGetuid)
    (fun uid =>
       bind (syscall env (LibAsprintf (rundir_of uid)))
         (fun a =>
            if a =? -1 then errExit "asprintf"
            else bind (basic_rules env (rundir_of uid))
                   (fun _ => bind (syscall env (LibFree (rundir_of uid)))
                               (fun _ => ret tt)))).

(** The state after the home directory rule (lines 173-183), started in a
    state where the ruleset check is done; with the descriptor [open] gave
    and what [ll_add_rule] said. *)
Definition home_rule_added (env : kernel) (homedir : string) (w1 : world)
  : Z * Z * world :=
  let home_fd := k_call env (trace w1) (SysOpen homedir) in
  let w2 := log (EvCall (SysOpen homedir) home_fd) w1 in
  let add := SysAddRule (rset_fd w1) home_fd home_access in
  let r := k_call env (trace w2) add in
  let w3 := log (EvCall add r) w2 in
  let w3' := if r =? 0 then w3 else log (EvStderr err_basic) w3 in
  (home_fd, r,
   log (EvCall (SysClose home_fd) (k_call env (trace w3') (SysClose home_fd))) w3').

End Baseline.

(** The paths [access] found (result 0), the descriptor every rule was
    submitted on, and every [landlock_restrict_self] call with its result. *)
Definition found_paths : trace_t -> list string :=
  collect (fun c r => match c with
                      | SysAccess p => if r =? 0 then Some p else None
                      | _ => None
                      end).

Definition rule_fds : trace_t -> list Z :=
  collect (fun c _ => match c with
                      | SysAddRule fd _ _ => Some fd
                      | _ => None
                      end).

Definition restrict_results : trace_t -> list (Z * Z * Z) :=
  collect (fun c r => match c with
                      | SysRestrictSelf fd f => Some (fd, f, r)
                      | _ => None
                      end).

(** From [w] to [w'], with the ruleset descriptor set: the paths [found]
    were found by [access], exactly these were opened, one rule for each was
    submitted on [rset_fd], and no ruleset was created and no restriction
    asked for. *)
Definition rewalked (found : list string) (w w' : world) : Prop :=
  rset_fd w' = rset_fd w
  /\ found_paths (trace w') = found_paths (trace w) ++ found
  /\ opened_paths (trace w') = opened_paths (trace w) ++ found
  /\ rule_fds (trace w') = rule_fds (trace w) ++ map (fun _ => rset_fd w) found
  /\ created_rulesets (trace w') = created_rulesets (trace w)
  /\ restrict_results (trace w') = restrict_results (trace w).


(** A kernel that reports [rel] and accepts every call. *)
Definition accepting_kernel (rel : string) : kernel := {|
  k_uname := fun _ => (0, {| release := rel; version := "#1 SMP" |});
  k_call := fun _ c =>
    match c with
    | SysCreateRuleset _ _ => 3
    | SysOpen _ => 4
    | SysGetuid => 1000
    | LibAsprintf s => Z.of_nat (String.length s)
    | LibMalloc | LibMemset | LibStrdup _ => 1
    | _ => 0
    end;
  k_stray := fun _ _ => ""
|}.

(** A kernel that reports [rel] and cannot create a ruleset. *)
Definition no_ruleset_kernel (rel : string) : kernel := {|
  k_uname := fun _ => (0, {| release := rel; version := "#1 SMP" |});
  k_call := fun _ c =>
    match c with
    | SysOpen _ => 4
    | SysClose _ | SysAccess _ | SysPrctlNoNewPrivs => 0
    | SysGetuid => 1000
    | LibAsprintf s => Z.of_nat (String.length s)
    | LibMalloc | LibMemset | LibStrdup _ => 1
    | _ => -1
    end;
  k_stray := fun _ _ => ""
|}.

(** * Properties *)

(** ** Traces *)

Lemma collect_app {A} (f : call -> Z -> option A) (t1 t2 : trace_t) :
  collect f (t1 ++ t2) = collect f t1 ++ collect f t2.
Proof. unfold collect. apply flat_map_app. Qed.

Lemma stderr_lines_app (t1 t2 : trace_t) :
  stderr_lines (t1 ++ t2) = stderr_lines t1 ++ stderr_lines t2.
Proof. unfold stderr_lines. apply flat_map_app. Qed.

Lemma trace_log (e : event) (w : world) : trace (log e w) = trace w ++ [e].
Proof. reflexivity. Qed.

(** ** The monad *)

Lemma bind_assoc {A B C} (m : M A) (k : A -> M B) (h : B -> M C) (w : world) :
  bind (bind m k) h w = bind m (fun a => bind (k a) h) w.
Proof. unfold bind. destruct (m w); reflexivity. Qed.

Lemma bind_ext {A B} (m : M A) (k k' : A -> M B) (w : world) :
  (forall a w', k a w' = k' a w') -> bind m k w = bind m k' w.
Proof. intros H. unfold bind. destruct (m w); auto. Qed.

Lemma bind_ret {A B} (m : M A) (k : A -> M B) (w w' : world) (a : A) :
  m w = Ret a w' -> bind m k w = k a w'.
Proof. intros H. unfold bind. rewrite H. reflexivity. Qed.

Lemma linux_single_bits : single_bits (uapi := linux_uapi) linux_pos.
Proof.
  split.
  - intros a; destruct a; split; cbn; (lia || reflexivity).
  - intros a b; destruct a; destruct b; cbn; intros H;
      first [reflexivity | discriminate H].
Defined.

(** ** The kernel probe *)

Lemma old_kernel_parsed (env : kernel) (w : world) (u : utsname) (major minor : Z) :
  k_uname env (trace w) = (0, u) ->
  Scan.sscanf_u_dot_u (release u) = Some (major, minor) ->
  old_kernel env w =
    Ret (if version_code major minor <? min_version_code then 1 else 0)
        (log (EvUname 0 u) w).
Proof.
  intros Hu Hs. unfold old_kernel, bind, uname.
  rewrite Hu. cbn. rewrite Hs.
  destruct (version_code major minor <? _); reflexivity.
Qed.

Lemma version_code_small (major minor : Z) :
  0 <= major < 2 ^ 24 -> 0 <= minor < 256 ->
  version_code major minor = major * 256 + minor.
Proof.
  intros Hmaj Hmin. unfold version_code.
  rewrite Z.shiftl_mul_pow2 by lia.
  change (2 ^ 8) with 256. change (2 ^ 24) with 16777216 in Hmaj.
  change (2 ^ 32) with 4294967296.
  rewrite (Z.mod_small (major * 256)) by lia.
  apply Z.mod_small. lia.
Qed.

(** X15.  For a release that [sscanf] reads as [major.minor] with
    [major < 2^24] and [minor < 256], [old_kernel] returns 0 exactly when
    [(major, minor)] is at least [(6, 1)], and 1 otherwise. *)
Theorem old_kernel_threshold (env : kernel) (w : world) (u : utsname) (major minor : Z) :
  k_uname env (trace w) = (0, u) ->
  Scan.sscanf_u_dot_u (release u) = Some (major, minor) ->
  0 <= major < 2 ^ 24 ->
  0 <= minor < 256 ->
  old_kernel env w =
    Ret (if at_least_6_1 major minor then 0 else 1) (log (EvUname 0 u) w).
Proof.
  intros Hu Hs Hmaj Hmin.
  rewrite (old_kernel_parsed env w u major minor Hu Hs).
  rewrite version_code_small by assumption.
  unfold min_version_code, at_least_6_1. change (Z.shiftl 6 8 + 1) with 1537.
  destruct (major * 256 + minor <? 1537) eqn:E;
    destruct (6 <? major) eqn:E1; destruct (major =? 6) eqn:E2;
    destruct (1 <=? minor) eqn:E3; cbn; try reflexivity; exfalso; lia.
Qed.

Lemma old_kernel_threshold_witness :
  old_kernel (test_kernel "6.1.0" (fun _ => true)) init_world =
    Ret 0 (log (EvUname 0 {| release := "6.1.0"; version := "#1 SMP" |}) init_world)
  /\ old_kernel (test_kernel "6.0.19" (fun _ => true)) init_world =
    Ret 1 (log (EvUname 0 {| release := "6.0.19"; version := "#1 SMP" |}) init_world).
Proof.
  split.
  - apply (old_kernel_threshold (test_kernel "6.1.0" (fun _ => true)) init_world
             {| release := "6.1.0"; version := "#1 SMP" |} 6 1);
      [reflexivity | reflexivity | lia | lia].
  - apply (old_kernel_threshold (test_kernel "6.0.19" (fun _ => true)) init_world
             {| release := "6.0.19"; version := "#1 SMP" |} 6 0);
      [reflexivity | reflexivity | lia | lia].
Defined.

(** C4.  The release "5.300" is read as major 5, minor 300, which is below
    (6, 1); [old_kernel] returns 0 (supported) all the same, because
    [(5 << 8) + 300 = 1580] is not below [(6 << 8) + 1 = 1537].  Releases
    around the threshold with a small minor are told apart as the comment
    on [old_kernel] says. *)
Theorem old_kernel_reports_5_300_supported :
  Scan.sscanf_u_dot_u "5.300" = Some (5, 300)
  /\ at_least_6_1 5 300 = false
  /\ version_code 5 300 = 1580
  /\ min_version_code = 1537
  /\ old_kernel (test_kernel "5.300" (fun _ => true)) init_world =
       Ret 0 (log (EvUname 0 {| release := "5.300"; version := "#1 SMP" |}) init_world)
  /\ old_kernel (test_kernel "6.0.19" (fun _ => true)) init_world =
       Ret 1 (log (EvUname 0 {| release := "6.0.19"; version := "#1 SMP" |}) init_world)
  /\ old_kernel (test_kernel "6.1.0" (fun _ => true)) init_world =
       Ret 0 (log (EvUname 0 {| release := "6.1.0"; version := "#1 SMP" |}) init_world).
Proof. repeat split. Qed.

(** C5.  An unreadable release ends the process after the error line, and a
    readable release never does; but the readable release "5.300", which is
    below 6.1, is not reported as unsupported: [old_kernel] returns 0 for
    it, where it returns 1 for "5.15.0". *)
Theorem old_kernel_graceful_but_wrong_at_5_300 :
  old_kernel (test_kernel "generic" (fun _ => true)) init_world =
    Exit 1 (logs [EvUname 0 {| release := "generic"; version := "#1 SMP" |};
                  EvStderr ("Error: cannot extract Linux kernel version: "
                              ++ "#1 SMP" ++ nl)%string] init_world)
  /\ old_kernel (test_kernel "5.15.0" (fun _ => true)) init_world =
       Ret 1 (log (EvUname 0 {| release := "5.15.0"; version := "#1 SMP" |}) init_world)
  /\ Scan.sscanf_u_dot_u "5.300" = Some (5, 300)
  /\ at_least_6_1 5 300 = false
  /\ old_kernel (test_kernel "5.300" (fun _ => true)) init_world =
       Ret 0 (log (EvUname 0 {| release := "5.300"; version := "#1 SMP" |}) init_world).
Proof. repeat split. Qed.

(** ** The per-class helpers *)

Section HelperFacts.

Context {uapi : LandlockUapi}.
Variable env : kernel.

Lemma ensure_ruleset_run (w : world) :
  ensure_ruleset env w = Ret tt (ensured env w).
Proof.
  unfold ensure_ruleset, ensured, bind, get_rset_fd.
  destruct (rset_fd w =? -1); reflexivity.
Qed.

(** A helper on a kernel the probe accepts. *)
Lemma ll_helper_run (m : Z) (path : string) (w w0 : world) :
  old_kernel env w = Ret 0 w0 ->
  ll_helper env m path w =
    Ret (fst (rule_added env m path (ensured env w0)))
        (snd (rule_added env m path (ensured env w0))).
Proof.
  intros H. unfold ll_helper, bind at 1. rewrite H. cbn [Z.eqb negb].
  unfold bind at 1. rewrite ensure_ruleset_run. reflexivity.
Qed.

(** A helper on a kernel the probe rejects. *)
Lemma ll_helper_old (m : Z) (path : string) (w w0 : world) (o : Z) :
  old_kernel env w = Ret o w0 -> o <> 0 ->
  ll_helper env m path w = Ret 1 (log (EvStderr warn_not_enabled) w0).
Proof.
  intros H Ho. unfold ll_helper, bind at 1. rewrite H.
  apply Z.eqb_neq in Ho. rewrite Ho. reflexivity.
Qed.

Lemma helper_of_eq (c : access_class) :
  helper_of env c = ll_helper env (class_access c).
Proof. destruct c; reflexivity. Qed.

(** How [old_kernel] can end. *)
Lemma old_kernel_cases (w : world) :
  (exists u o, old_kernel env w = Ret o (log (EvUname 0 u) w) /\ (o = 0 \/ o = 1))
  \/ (exists rv u, old_kernel env w = Exit 1 (logs [EvUname rv u; EvErrExit "uname"] w))
  \/ (exists u m, old_kernel env w = Exit 1 (logs [EvUname 0 u; EvStderr m] w)).
Proof.
  unfold old_kernel, bind, uname.
  destruct (k_uname env (trace w)) as [rv u] eqn:Hu.
  destruct (rv =? 0) eqn:Hrv; cbn [negb].
  - apply Z.eqb_eq in Hrv. subst rv.
    destruct (Scan.sscanf_u_dot_u (release u)) as [[major minor]|].
    + left. exists u.
      destruct (version_code major minor <? min_version_code);
        eexists; split; try reflexivity; auto.
    + right. right. eexists. eexists. reflexivity.
  - right. left. eexists. eexists. reflexivity.
Qed.

Lemma ensured_rset_fd (w : world) :
  rset_fd w <> -1 -> ensured env w = w.
Proof.
  intros H. unfold ensured. apply Z.eqb_neq in H. rewrite H. reflexivity.
Qed.

Lemma ensured_cfg (w : world) :
  cfg_lprofile (ensured env w) = cfg_lprofile w
  /\ cfg_homedir (ensured env w) = cfg_homedir w.
Proof. unfold ensured. destruct (rset_fd w =? -1); split; reflexivity. Qed.

Lemma ensured_trace (w : world) :
  trace (ensured env w) =
    trace w ++
      (if rset_fd w =? -1
       then [EvCall (SysCreateRuleset full_ruleset_mask 0)
               (k_call env (trace w) (SysCreateRuleset full_ruleset_mask 0))]
       else []).
Proof.
  unfold ensured. destruct (rset_fd w =? -1); cbn.
  - reflexivity.
  - symmetry. apply app_nil_r.
Qed.

Lemma rule_added_trace (m : Z) (path : string) (w1 : world) :
  exists pfd r c,
    pfd = k_call env (trace w1) (SysOpen path)
    /\ fst (rule_added env m path w1) = r
    /\ trace (snd (rule_added env m path w1)) =
         trace w1 ++ [EvCall (SysOpen path) pfd;
                      EvCall (SysAddRule (rset_fd w1) pfd m) r;
                      EvCall (SysClose pfd) c].
Proof.
  eexists. eexists. eexists. split; [reflexivity|]. split; [reflexivity|].
  unfold rule_added. cbn [snd]. rewrite !trace_log, <- !app_assoc. reflexivity.
Qed.

Lemma rule_added_state (m : Z) (path : string) (w1 : world) :
  rset_fd (snd (rule_added env m path w1)) = rset_fd w1
  /\ cfg_lprofile (snd (rule_added env m path w1)) = cfg_lprofile w1
  /\ cfg_homedir (snd (rule_added env m path w1)) = cfg_homedir w1.
Proof. repeat split. Qed.

End HelperFacts.

(** ** Access masks *)

Section MaskFacts.

Context {uapi : LandlockUapi}.

Lemma submask_refl (a : Z) : submask a a.
Proof. apply Z.land_diag. Qed.

Lemma submask_0 (m : Z) : submask 0 m.
Proof. apply Z.land_0_l. Qed.

Lemma submask_lor_r (a m : Z) : submask a (m |' a).
Proof.
  unfold submask. apply Z.bits_inj'. intros n _.
  rewrite Z.land_spec, Z.lor_spec.
  destruct (Z.testbit a n), (Z.testbit m n); reflexivity.
Qed.

Lemma submask_lor_l (a m b : Z) : submask a m -> submask a (m |' b).
Proof.
  unfold submask. intros H. apply Z.bits_inj'. intros n _.
  apply (f_equal (fun z => Z.testbit z n)) in H.
  rewrite Z.land_spec in H. rewrite Z.land_spec, Z.lor_spec.
  destruct (Z.testbit a n), (Z.testbit m n), (Z.testbit b n);
    cbn in *; congruence.
Qed.

Lemma submask_lor (a b m : Z) :
  submask a m -> submask b m -> submask (a |' b) m.
Proof.
  unfold submask. intros Ha Hb. apply Z.bits_inj'. intros n _.
  apply (f_equal (fun z => Z.testbit z n)) in Ha, Hb.
  rewrite Z.land_spec in Ha, Hb. rewrite Z.land_spec, Z.lor_spec.
  destruct (Z.testbit a n), (Z.testbit b n), (Z.testbit m n);
    cbn in *; congruence.
Qed.

Lemma class_access_spec (c : access_class) :
  class_access c = mask_of (spec_class_rights c).
Proof.
  destruct c; cbn [class_access spec_class_rights mask_of fold_right flag_of];
    unfold read_access, write_access, special_access, exec_access;
    rewrite Z.lor_0_r, ?Z.lor_assoc; reflexivity.
Qed.

Lemma full_ruleset_mask_spec : full_ruleset_mask = mask_of spec_all_rights.
Proof.
  unfold full_ruleset_mask, spec_all_rights.
  cbn [mask_of fold_right flag_of].
  rewrite Z.lor_0_r, ?Z.lor_assoc. reflexivity.
Qed.

Lemma testbit_mask_of (l : list access_right) (i : Z) :
  Z.testbit (mask_of l) i = existsb (fun a => Z.testbit (flag_of a) i) l.
Proof.
  induction l as [|a l IH]; cbn [mask_of fold_right existsb].
  - apply Z.bits_0.
  - rewrite Z.lor_spec. fold (mask_of l). rewrite IH. reflexivity.
Qed.

Lemma mask_of_bits (l : list access_right) (i : Z) :
  Z.testbit (mask_of l) i = true <->
  exists a, In a l /\ Z.testbit (flag_of a) i = true.
Proof. rewrite testbit_mask_of. apply existsb_exists. Qed.

Lemma submask_mask_of (l : list access_right) (a : access_right) :
  In a l -> submask (flag_of a) (mask_of l).
Proof.
  unfold submask. intros Hin. apply Z.bits_inj'. intros n _.
  rewrite Z.land_spec.
  destruct (Z.testbit (flag_of a) n) eqn:E; [|reflexivity].
  cbn. apply mask_of_bits. exists a. auto.
Qed.

Lemma single_bit_submask (pos : access_right -> Z) (l : list access_right)
      (a : access_right) :
  single_bits pos ->
  (submask (flag_of a) (mask_of l) <-> In a l).
Proof.
  intros [Hpos Hinj]. split; [|apply submask_mask_of].
  unfold submask. intros Hsub.
  destruct (Hpos a) as [Ha Hfa].
  apply (f_equal (fun z => Z.testbit z (pos a))) in Hsub.
  rewrite Z.land_spec, Hfa, Z.shiftl_1_l, Z.pow2_bits_true in Hsub by assumption.
  cbn in Hsub. apply mask_of_bits in Hsub. destruct Hsub as [b [Hin Hb]].
  destruct (Hpos b) as [Hb0 Hfb].
  rewrite Hfb, Z.shiftl_1_l, Z.pow2_bits_eqb in Hb by assumption.
  apply Z.eqb_eq in Hb. apply Hinj in Hb. subst b. assumption.
Qed.

Lemma class_submask_full (c : access_class) :
  submask (class_access c) full_ruleset_mask.
Proof.
  destruct c; unfold class_access, read_access, write_access,
    special_access, exec_access, full_ruleset_mask;
    repeat apply submask_lor;
    repeat first [apply submask_lor_r | apply submask_refl | apply submask_lor_l].
Qed.

Lemma home_submask_full : submask home_access full_ruleset_mask.
Proof.
  unfold home_access, full_ruleset_mask.
  repeat apply submask_lor;
    repeat first [apply submask_lor_r | apply submask_refl | apply submask_lor_l].
Qed.

End MaskFacts.

(** ** What a helper call does *)

Lemma old_kernel_ret (env : kernel) (w w0 : world) (o : Z) :
  old_kernel env w = Ret o w0 ->
  exists u, w0 = log (EvUname 0 u) w.
Proof.
  intros H.
  destruct (old_kernel_cases env w) as [[u [o' [E _]]] | [[rv [u E]] | [u [m E]]]];
    rewrite E in H; inversion H; subst; eauto.
Qed.

Ltac read_trace :=
  repeat (rewrite ?collect_app, ?stderr_lines_app, ?trace_log, ?ensured_trace);
  cbn [collect flat_map stderr_lines app].

(** C8.  On a kernel the probe accepts, the helper of class [c] makes one
    [ll_add_rule] call, and its [allowed_access] is the union of the flags
    the spec lists for [c]: every bit of it is a bit of one of them, and when
    the thirteen flags are different single bits, a flag is inside the mask
    exactly when the spec lists it for [c]. *)
Theorem helper_submits_class_mask {uapi : LandlockUapi} (env : kernel)
        (c : access_class) (path : string) (w w0 : world) :
  old_kernel env w = Ret 0 w0 ->
  exists r w',
    helper_of env c path w = Ret r w'
    /\ (exists fd pfd,
          added_rules (trace w') =
            added_rules (trace w) ++ [(fd, pfd, mask_of (spec_class_rights c))])
    /\ (forall i,
          Z.testbit (mask_of (spec_class_rights c)) i = true <->
          exists a, In a (spec_class_rights c) /\ Z.testbit (flag_of a) i = true)
    /\ (forall pos, single_bits pos ->
          forall a, submask (flag_of a) (mask_of (spec_class_rights c)) <->
                    In a (spec_class_rights c)).
Proof.
  intros H. destruct (old_kernel_ret env w w0 0 H) as [u Hw0].
  rewrite helper_of_eq, (ll_helper_run env _ path w w0 H).
  eexists. eexists. split; [reflexivity|].
  split; [|split].
  - destruct (rule_added_trace env (class_access c) path (ensured env w0))
      as [pfd [r [cl [_ [_ Ht]]]]].
    rewrite Ht. exists (rset_fd (ensured env w0)), pfd.
    rewrite <- class_access_spec. subst w0. unfold added_rules. read_trace.
    destruct (rset_fd (log (EvUname 0 u) w) =? -1);
      cbn [collect flat_map app]; rewrite ?app_nil_r; reflexivity.
  - intros i. apply mask_of_bits.
  - intros pos Hpos a. apply (single_bit_submask pos). assumption.
Qed.

Lemma helper_submits_class_mask_witness :
  exists r w',
    helper_of (test_kernel "6.5.0" (fun _ => true)) Write "/tmp" init_world = Ret r w'
    /\ (exists fd pfd,
          added_rules (trace w') =
            added_rules (trace init_world)
              ++ [(fd, pfd, mask_of (spec_class_rights Write))])
    /\ submask (flag_of make_sym) (mask_of (spec_class_rights Write))
    /\ ~ submask (flag_of read_file) (mask_of (spec_class_rights Write)).
Proof.
  destruct (helper_submits_class_mask (test_kernel "6.5.0" (fun _ => true)) Write
              "/tmp" init_world
              (log (EvUname 0 {| release := "6.5.0"; version := "#1 SMP" |}) init_world)
              eq_refl)
    as [r [w' [H [Hadd [_ Hs]]]]].
  exists r, w'. split; [exact H|]. split; [exact Hadd|]. split.
  - apply (Hs linux_pos linux_single_bits). cbn. tauto.
  - intros Hc. apply (Hs linux_pos linux_single_bits) in Hc. cbn in Hc.
    repeat (destruct Hc as [Hc | Hc]; [discriminate Hc|]). exact Hc.
Defined.

(** C9.  On a kernel the probe accepts, a helper creates the ruleset exactly
    when [rset_fd] is -1, with the full mask, and keeps what
    [ll_create_ruleset] returned; with [rset_fd] set it creates nothing and
    leaves [rset_fd] alone.  The full mask is the union of the thirteen
    rights the spec lists, so it contains every flag, the mask of every
    class, and the mask of the home directory rule. *)
Theorem ruleset_created_lazily {uapi : LandlockUapi} (env : kernel)
        (c : access_class) (path : string) (w w0 : world) :
  old_kernel env w = Ret 0 w0 ->
  exists r w',
    helper_of env c path w = Ret r w'
    /\ created_rulesets (trace w') =
         created_rulesets (trace w)
           ++ (if rset_fd w =? -1 then [(full_ruleset_mask, 0)] else [])
    /\ rset_fd w' =
         (if rset_fd w =? -1
          then k_call env (trace w0) (SysCreateRuleset full_ruleset_mask 0)
          else rset_fd w)
    /\ full_ruleset_mask = mask_of spec_all_rights
    /\ (forall a, submask (flag_of a) full_ruleset_mask)
    /\ (forall c', submask (class_access c') full_ruleset_mask)
    /\ submask home_access full_ruleset_mask.
Proof.
  intros H. destruct (old_kernel_ret env w w0 0 H) as [u Hw0].
  rewrite helper_of_eq, (ll_helper_run env _ path w w0 H).
  eexists. eexists. split; [reflexivity|].
  split; [|split; [|split; [|split; [|split]]]].
  - destruct (rule_added_trace env (class_access c) path (ensured env w0))
      as [pfd [r [cl [_ [_ Ht]]]]].
    rewrite Ht. subst w0. unfold created_rulesets. read_trace.
    change (rset_fd (log (EvUname 0 u) w)) with (rset_fd w).
    destruct (rset_fd w =? -1); cbn [collect flat_map app];
      rewrite ?app_nil_r; reflexivity.
  - destruct (rule_added_state env (class_access c) path (ensured env w0))
      as [Hfd _]. rewrite Hfd. subst w0. unfold ensured.
    change (rset_fd (log (EvUname 0 u) w)) with (rset_fd w).
    destruct (rset_fd w =? -1); reflexivity.
  - apply full_ruleset_mask_spec.
  - intros a. rewrite full_ruleset_mask_spec. apply submask_mask_of.
    destruct a; cbn; tauto.
  - apply class_submask_full.
  - apply home_submask_full.
Qed.

Lemma ruleset_created_lazily_witness :
  exists r w',
    helper_of (test_kernel "6.5.0" (fun _ => true)) Read "/" init_world = Ret r w'
    /\ created_rulesets (trace w') =
         created_rulesets (trace init_world)
           ++ (if rset_fd init_world =? -1 then [(full_ruleset_mask, 0)] else [])
    /\ rset_fd w' =
         (if rset_fd init_world =? -1
          then k_call (test_kernel "6.5.0" (fun _ => true))
                 (trace (log (EvUname 0 {| release := "6.5.0"; version := "#1 SMP" |})
                           init_world))
                 (SysCreateRuleset full_ruleset_mask 0)
          else rset_fd init_world)
    /\ full_ruleset_mask = mask_of spec_all_rights
    /\ (forall a, submask (flag_of a) full_ruleset_mask)
    /\ (forall c', submask (class_access c') full_ruleset_mask)
    /\ submask home_access full_ruleset_mask.
Proof.
  apply (ruleset_created_lazily (test_kernel "6.5.0" (fun _ => true)) Read "/"
           init_world
           (log (EvUname 0 {| release := "6.5.0"; version := "#1 SMP" |}) init_world)).
  reflexivity.
Defined.

(** C10.  No helper looks at what [open] returned.  On a kernel the probe
    accepts, when [open] fails with -1 the helper still calls [ll_add_rule]
    with parent descriptor -1 and [close] with -1, and returns what
    [ll_add_rule] returned.  On every way a helper can end (return or exit),
    the descriptors it closed are the ones [open] gave it. *)
Theorem helper_open_unchecked {uapi : LandlockUapi} (env : kernel)
        (c : access_class) (path : string) (w : world) :
  (forall w0,
      old_kernel env w = Ret 0 w0 ->
      k_call env (trace (ensured env w0)) (SysOpen path) = -1 ->
      exists r cl w',
        helper_of env c path w = Ret r w'
        /\ trace w' =
             trace (ensured env w0)
               ++ [EvCall (SysOpen path) (-1);
                   EvCall (SysAddRule (rset_fd w') (-1) (class_access c)) r;
                   EvCall (SysClose (-1)) cl])
  /\ (exists l,
         opened (trace (final (helper_of env c path w))) = opened (trace w) ++ l
         /\ closed (trace (final (helper_of env c path w))) = closed (trace w) ++ l).
Proof.
  split.
  - intros w0 H Hopen.
    rewrite helper_of_eq, (ll_helper_run env _ path w w0 H).
    destruct (rule_added_trace env (class_access c) path (ensured env w0))
      as [pfd [r [cl [Hpfd [Hr Ht]]]]].
    rewrite Hopen in Hpfd. subst pfd.
    exists r, cl. eexists. split; [rewrite Hr; reflexivity|].
    rewrite Ht.
    destruct (rule_added_state env (class_access c) path (ensured env w0))
      as [Hfd _]. rewrite Hfd. reflexivity.
  - rewrite helper_of_eq.
    destruct (old_kernel_cases env w)
      as [[u [o [E Ho]]] | [[rv [u E]] | [u [m E]]]].
    + destruct Ho as [Ho | Ho]; subst o.
      * rewrite (ll_helper_run env _ path w _ E). cbn [final].
        destruct (rule_added_trace env (class_access c) path
                    (ensured env (log (EvUname 0 u) w)))
          as [pfd [r [cl [_ [_ Ht]]]]].
        rewrite Ht. exists [pfd]. unfold opened, closed. read_trace.
        destruct (rset_fd (log (EvUname 0 u) w) =? -1);
          cbn [collect flat_map app]; rewrite ?app_nil_r; split; reflexivity.
      * rewrite (ll_helper_old env _ path w _ 1 E) by lia. cbn [final].
        exists []. unfold opened, closed. read_trace.
        rewrite ?app_nil_r. split; reflexivity.
    + unfold ll_helper, bind. rewrite E. cbn [final logs fold_left].
      exists []. unfold opened, closed. read_trace.
      rewrite ?app_nil_r. split; reflexivity.
    + unfold ll_helper, bind. rewrite E. cbn [final logs fold_left].
      exists []. unfold opened, closed. read_trace.
      rewrite ?app_nil_r. split; reflexivity.
Qed.

Lemma helper_open_unchecked_witness :
  exists r cl w',
    helper_of (test_kernel "6.5.0" (fun _ => false)) Execute "/opt" init_world = Ret r w'
    /\ trace w' =
         trace (ensured (test_kernel "6.5.0" (fun _ => false))
                  (log (EvUname 0 {| release := "6.5.0"; version := "#1 SMP" |})
                     init_world))
           ++ [EvCall (SysOpen "/opt") (-1);
               EvCall (SysAddRule (rset_fd w') (-1) (class_access Execute)) r;
               EvCall (SysClose (-1)) cl].
Proof.
  apply (proj1 (helper_open_unchecked (test_kernel "6.5.0" (fun _ => false))
                  Execute "/opt" init_world)
           (log (EvUname 0 {| release := "6.5.0"; version := "#1 SMP" |}) init_world)).
  - reflexivity.
  - reflexivity.
Defined.

(** ** The directive walk and the commit *)

Section RestrictFacts.

Context {uapi : LandlockUapi}.
Variable env : kernel.

Lemma walk_entry_app (fnc : string -> M Z) (fname : string)
      (rest : M unit) (k : unit -> M unit) (w : world) :
  walk_entry env fnc fname (bind rest k) w =
    bind (walk_entry env fnc fname rest) k w.
Proof.
  unfold walk_entry. rewrite !bind_assoc. apply bind_ext. intros a wa.
  rewrite !bind_assoc. reflexivity.
Qed.

Lemma walk_entry_ext (fnc : string -> M Z) (fname : string)
      (rest rest' : M unit) (w : world) :
  (forall w', rest w' = rest' w') ->
  walk_entry env fnc fname rest w = walk_entry env fnc fname rest' w.
Proof.
  intros H. unfold walk_entry. apply bind_ext. intros a wa.
  apply bind_ext. intros [] wb. apply H.
Qed.

Lemma walk_app (pre post : list string) (w : world) :
  ll_restrict_walk env (pre ++ post) w =
    bind (ll_restrict_walk env pre) (fun _ => ll_restrict_walk env post) w.
Proof.
  revert w. induction pre as [|d pre IH]; intros w.
  - reflexivity.
  - cbn [app ll_restrict_walk].
    destruct (dispatch env d) as [[[fname|] fnc]|]; try reflexivity.
    + rewrite (walk_entry_ext fnc fname _ _ w IH). apply walk_entry_app.
    + rewrite (walk_entry_ext fnc _ _ _ w IH).
      exact (walk_entry_app fnc (k_stray env (trace w) d) _ _ w).
Qed.

Lemma walk_skip (data : string) (next : list string) (w : world)
      (fname : string) (fnc : string -> M Z) :
  dispatch env data = Some (Some fname, fnc) ->
  k_call env (trace w) (SysAccess fname) <> 0 ->
  ll_restrict_walk env (data :: next) w =
    ll_restrict_walk env next
      (log (EvCall (SysAccess fname) (k_call env (trace w) (SysAccess fname))) w).
Proof.
  intros Hd Ha. cbn [ll_restrict_walk]. rewrite Hd.
  unfold walk_entry, bind at 1 2, syscall at 1. apply Z.eqb_neq in Ha. rewrite Ha.
  reflexivity.
Qed.

Lemma commit_run (flags : Z) (w1 : world) :
  ll_restrict_commit env flags w1 =
    if rset_fd w1 =? -1 then Ret 0 w1
    else
      let p := k_call env (trace w1) SysPrctlNoNewPrivs in
      let w2 := log (EvCall SysPrctlNoNewPrivs p) w1 in
      let r := k_call env (trace w2) (SysRestrictSelf (rset_fd w1) flags) in
      let w3 := log (EvCall (SysRestrictSelf (rset_fd w1) flags) r) w2 in
      if r =? 0
      then Ret 0 (log (EvCall (SysClose (rset_fd w1))
                         (k_call env (trace w3) (SysClose (rset_fd w1)))) w3)
      else Ret r w3.
Proof.
  unfold ll_restrict_commit, bind at 1, get_rset_fd.
  destruct (rset_fd w1 =? -1); [reflexivity|].
  unfold bind at 1 2, syscall at 1, landlock_restrict_self, syscall at 1.
  cbn zeta.
  destruct (k_call env _ (SysRestrictSelf (rset_fd w1) flags) =? 0);
    reflexivity.
Qed.

Lemma ll_restrict_run (flags : Z) (w w0 : world) :
  old_kernel env w = Ret 0 w0 ->
  ll_restrict env flags w =
    bind (ll_restrict_walk env (cfg_lprofile w0))
         (fun _ => ll_restrict_commit env flags) w0.
Proof.
  intros H. unfold ll_restrict, bind at 1. rewrite H. reflexivity.
Qed.

End RestrictFacts.

(** C6.  An entry of the directive list whose path [access] does not find
    costs one [access] call and nothing else: no rule is added, nothing is
    opened, nothing is written to stderr, and the walk goes on with the
    entries after it. *)
Theorem missing_path_skipped {uapi : LandlockUapi} (env : kernel)
        (pre : list string) (data : string) (next : list string)
        (w w1 : world) (fname : string) (fnc : string -> M Z) :
  ll_restrict_walk env pre w = Ret tt w1 ->
  dispatch env data = Some (Some fname, fnc) ->
  k_call env (trace w1) (SysAccess fname) <> 0 ->
  exists a wa,
    a <> 0
    /\ wa = log (EvCall (SysAccess fname) a) w1
    /\ ll_restrict_walk env (pre ++ data :: next) w = ll_restrict_walk env next wa
    /\ added_rules (trace wa) = added_rules (trace w1)
    /\ opened_paths (trace wa) = opened_paths (trace w1)
    /\ created_rulesets (trace wa) = created_rulesets (trace w1)
    /\ stderr_lines (trace wa) = stderr_lines (trace w1)
    /\ rset_fd wa = rset_fd w1.
Proof.
  intros Hpre Hd Ha.
  exists (k_call env (trace w1) (SysAccess fname)). eexists.
  split; [assumption|]. split; [reflexivity|].
  split.
  - rewrite walk_app. unfold bind. rewrite Hpre.
    apply (walk_skip env data next w1 fname fnc Hd Ha).
  - unfold added_rules, opened_paths, created_rulesets. read_trace.
    rewrite !app_nil_r. repeat split.
Qed.

Lemma missing_path_skipped_witness :
  exists a wa,
    a <> 0
    /\ wa = log (EvCall (SysAccess "/no/such/path") a) init_world
    /\ ll_restrict_walk (test_kernel "6.5.0" (fun p => String.eqb p "/opt/app"))
         ([] ++ "landlock.write /no/such/path" :: ["landlock.read /opt/app"])
         init_world =
       ll_restrict_walk (test_kernel "6.5.0" (fun p => String.eqb p "/opt/app"))
         ["landlock.read /opt/app"] wa
    /\ added_rules (trace wa) = added_rules (trace init_world)
    /\ opened_paths (trace wa) = opened_paths (trace init_world)
    /\ created_rulesets (trace wa) = created_rulesets (trace init_world)
    /\ stderr_lines (trace wa) = stderr_lines (trace init_world)
    /\ rset_fd wa = rset_fd init_world.
Proof.
  apply (missing_path_skipped
           (test_kernel "6.5.0" (fun p => String.eqb p "/opt/app"))
           [] "landlock.write /no/such/path" ["landlock.read /opt/app"]
           init_world init_world "/no/such/path"
           (ll_write (test_kernel "6.5.0" (fun p => String.eqb p "/opt/app")))).
  - reflexivity.
  - reflexivity.
  - cbn. lia.
Defined.

(** C7.  When the walk is over and [rset_fd] is set, [ll_restrict] calls
    [prctl] and [landlock_restrict_self].  If that returns non-zero,
    [ll_restrict] returns the same value, closes nothing and leaves [rset_fd]
    alone; if it returns 0, [ll_restrict] closes [rset_fd] and returns 0. *)
Theorem restrict_failure_returned {uapi : LandlockUapi} (env : kernel)
        (flags : Z) (w w0 w1 : world) :
  old_kernel env w = Ret 0 w0 ->
  ll_restrict_walk env (cfg_lprofile w0) w0 = Ret tt w1 ->
  rset_fd w1 <> -1 ->
  let p := k_call env (trace w1) SysPrctlNoNewPrivs in
  let w2 := log (EvCall SysPrctlNoNewPrivs p) w1 in
  let r := k_call env (trace w2) (SysRestrictSelf (rset_fd w1) flags) in
  let w3 := log (EvCall (SysRestrictSelf (rset_fd w1) flags) r) w2 in
  (r <> 0 ->
   ll_restrict env flags w = Ret r w3
   /\ rset_fd w3 = rset_fd w1
   /\ closed (trace w3) = closed (trace w1))
  /\ (r = 0 ->
      exists c,
        ll_restrict env flags w = Ret 0 (log (EvCall (SysClose (rset_fd w1)) c) w3)
        /\ closed (trace (log (EvCall (SysClose (rset_fd w1)) c) w3)) =
             closed (trace w1) ++ [rset_fd w1]).
Proof.
  intros H Hwalk Hfd p w2 r w3.
  rewrite (ll_restrict_run env flags w w0 H). unfold bind. rewrite Hwalk.
  rewrite commit_run. apply Z.eqb_neq in Hfd. rewrite Hfd. cbn zeta.
  fold p. fold w2. fold r. fold w3.
  split.
  - intros Hr. apply Z.eqb_neq in Hr. rewrite Hr.
    split; [reflexivity|]. split; [reflexivity|].
    unfold w3, w2, closed. read_trace. rewrite !app_nil_r. reflexivity.
  - intros Hr. rewrite Hr. cbn [Z.eqb]. eexists. split; [reflexivity|].
    unfold w3, w2, closed. read_trace. rewrite !app_nil_r. reflexivity.
Qed.

Lemma restrict_failure_returned_witness :
  (ll_restrict (test_kernel "6.5.0" (fun _ => true)) 0 (with_rset_fd 7 init_world) =
     Ret (-1)
       (logs [EvUname 0 {| release := "6.5.0"; version := "#1 SMP" |};
              EvCall SysPrctlNoNewPrivs 0;
              EvCall (SysRestrictSelf 7 0) (-1)] (with_rset_fd 7 init_world)))
  /\ (exists c w',
        ll_restrict (test_kernel "6.5.0" (fun _ => true)) 0 (with_rset_fd 3 init_world) =
          Ret 0 (log (EvCall (SysClose 3) c) w')).
Proof.
  split.
  - apply (proj1 (restrict_failure_returned (test_kernel "6.5.0" (fun _ => true)) 0
                    (with_rset_fd 7 init_world)
                    (log (EvUname 0 {| release := "6.5.0"; version := "#1 SMP" |})
                       (with_rset_fd 7 init_world))
                    (log (EvUname 0 {| release := "6.5.0"; version := "#1 SMP" |})
                       (with_rset_fd 7 init_world))
                    eq_refl eq_refl ltac:(cbn; lia))).
    cbn. lia.
  - destruct (proj2 (restrict_failure_returned (test_kernel "6.5.0" (fun _ => true)) 0
                       (with_rset_fd 3 init_world)
                       (log (EvUname 0 {| release := "6.5.0"; version := "#1 SMP" |})
                          (with_rset_fd 3 init_world))
                       (log (EvUname 0 {| release := "6.5.0"; version := "#1 SMP" |})
                          (with_rset_fd 3 init_world))
                       eq_refl eq_refl ltac:(cbn; lia)) eq_refl) as [c [Hc _]].
    exists c. eexists. exact Hc.
Defined.

(** ** The baseline chain *)

Section ChainFacts.

Context {uapi : LandlockUapi}.
Variable env : kernel.

Lemma or_chain_stops (pre : list (M Z)) (c : M Z) (post : list (M Z))
      (w w1 w2 : world) (r : Z) :
  chain_passes pre w w1 ->
  c w1 = Ret r w2 -> r <> 0 ->
  or_chain (pre ++ c :: post) w = Ret true w2.
Proof.
  intros Hpre Hc Hr. revert w Hpre.
  induction pre as [|p pre IH]; intros w Hpre; cbn in Hpre.
  - subst w1. cbn [app or_chain]. unfold bind. rewrite Hc.
    apply Z.eqb_neq in Hr. rewrite Hr. reflexivity.
  - destruct Hpre as [w' [Hp Hrest]].
    cbn [app or_chain]. unfold bind at 1. rewrite Hp. cbn [Z.eqb negb].
    apply IH. assumption.
Qed.

Lemma or_chain_passes (cs : list (M Z)) (w w1 : world) :
  chain_passes cs w w1 -> or_chain cs w = Ret false w1.
Proof.
  revert w. induction cs as [|c cs IH]; intros w H; cbn in H.
  - subst w1. reflexivity.
  - destruct H as [w' [Hc Hrest]].
    cbn [or_chain]. unfold bind at 1. rewrite Hc. cbn [Z.eqb negb].
    apply IH. assumption.
Qed.

Lemma split_nth {A} (l : list A) (k : nat) (c : A) :
  nth_error l k = Some c -> l = firstn k l ++ c :: skipn (S k) l.
Proof.
  revert l. induction k as [|k IH]; intros [|x l] H; try discriminate.
  - inversion H. reflexivity.
  - cbn [firstn app skipn]. f_equal. apply IH. exact H.
Qed.

End ChainFacts.

(** C3, as amended.  The chain of [ll_basic_system] stops at the first helper
    call that returns non-zero: when the calls before position [k] all
    return 0 and the call at [k] does not, lines 189-217 end in the state
    right after that call plus one error line, so no later helper is
    called.  When every call of the chain returns 0, all of them run and
    lines 189-217 end in the state after the last one, with nothing
    written. *)
Theorem basic_chain_stops_at_first_failure {uapi : LandlockUapi} (env : kernel)
        (rundir : string) (w : world) :
  (forall k c w1 w2 r,
      nth_error (basic_chain env rundir) k = Some c ->
      chain_passes (firstn k (basic_chain env rundir)) w w1 ->
      c w1 = Ret r w2 ->
      r <> 0 ->
      basic_rules env rundir w = Ret tt (log (EvStderr err_basic) w2))
  /\ (forall wz,
        chain_passes (basic_chain env rundir) w wz ->
        basic_rules env rundir w = Ret tt wz).
Proof.
  split.
  - intros k c w1 w2 r Hk Hpre Hc Hr. unfold basic_rules, bind.
    rewrite (split_nth _ k c Hk).
    rewrite (or_chain_stops (firstn k (basic_chain env rundir)) c _ w w1 w2 r
               Hpre Hc Hr).
    reflexivity.
  - intros wz Hall. unfold basic_rules, bind.
    rewrite (or_chain_passes _ w wz Hall). reflexivity.
Qed.

Lemma basic_chain_stops_at_first_failure_witness :
  (exists w2,
      basic_rules (test_kernel "6.5.0" (fun p => negb (String.eqb p "/dev")))
        "/run/user/1000" init_world = Ret tt (log (EvStderr err_basic) w2)
      /\ opened_paths (trace w2) = ["/"; "/"; "/tmp"; "/dev"])
  /\ (exists wz,
        basic_rules (accepting_kernel "6.5.0") "/run/user/1000" init_world = Ret tt wz
        /\ stderr_lines (trace wz) = []
        /\ List.length (opened_paths (trace wz)) = 26%nat).
Proof.
  split.
  - eexists. split.
    + eapply (proj1 (basic_chain_stops_at_first_failure
                       (test_kernel "6.5.0" (fun p => negb (String.eqb p "/dev")))
                       "/run/user/1000" init_world)
                3%nat
                (ll_write (test_kernel "6.5.0" (fun p => negb (String.eqb p "/dev")))
                   "/dev")
                _ _ (-1) eq_refl
                ltac:(cbn [firstn basic_chain chain_passes];
                      repeat (eexists; split; [vm_compute; reflexivity|]);
                      reflexivity)
                ltac:(vm_compute; reflexivity)
                ltac:(lia)).
    + vm_compute. reflexivity.
  - eexists. split.
    + eapply (proj2 (basic_chain_stops_at_first_failure (accepting_kernel "6.5.0")
                       "/run/user/1000" init_world)).
      cbn [basic_chain chain_passes].
      repeat (eexists; split; [vm_compute; reflexivity|]).
      reflexivity.
    + vm_compute. split; reflexivity.
Defined.

(** C3, as stated, fails: with "/dev" missing, [ll_write "/dev"] returns -1
    and none of the twenty-two helper calls after it is made; "/run/shm" and
    "/opt", for instance, are never opened. *)
Lemma basic_chain_counterexample :
  opened_paths
    (trace (final (ll_basic_system
                     (test_kernel "6.5.0" (fun p => negb (String.eqb p "/dev")))
                     init_world)))
  = ["/home/user"; "/"; "/"; "/tmp"; "/dev"]
  /\ List.length (added_rules
               (trace (final (ll_basic_system
                                (test_kernel "6.5.0" (fun p => negb (String.eqb p "/dev")))
                                init_world)))) = 5%nat
  /\ List.length (basic_chain (test_kernel "6.5.0" (fun p => negb (String.eqb p "/dev")))
               "/run/user/1000") = 26%nat.
Proof. vm_compute. repeat split. Qed.

(** ** What the walk keeps *)

Lemma bind_inv {A B} (m : M A) (k : A -> M B) (w w' : world) (b : B) :
  bind m k w = Ret b w' ->
  exists a w1, m w = Ret a w1 /\ k a w1 = Ret b w'.
Proof.
  unfold bind. destruct (m w) as [a w1| |]; intros H; try discriminate.
  exists a, w1. auto.
Qed.

Section WalkFacts.

Context {uapi : LandlockUapi}.
Variable env : kernel.

Lemma kept_trans (p1 p2 : list string) (w1 w2 w3 : world) :
  kept p1 w1 w2 -> kept p2 w2 w3 -> kept (p1 ++ p2) w1 w3.
Proof.
  intros [Hl1 [Hf1 Hp1]] [Hl2 [Hf2 Hp2]]. split; [|split].
  - congruence.
  - intros H. rewrite Hf2; rewrite Hf1; auto.
  - rewrite Hp2, Hp1, app_assoc. reflexivity.
Qed.

Lemma kept_log (e : event) (w : world) :
  (forall p r, e <> EvCall (SysAccess p) r) -> kept [] w (log e w).
Proof.
  intros He. split; [reflexivity|]. split; [reflexivity|].
  unfold probed_paths. read_trace.
  destruct e as [| [] r | |]; try reflexivity.
  exfalso. eapply He. reflexivity.
Qed.

Lemma helper_kept (m : Z) (path : string) (w w' : world) (r : Z) :
  ll_helper env m path w = Ret r w' -> kept [] w w'.
Proof.
  intros H.
  destruct (old_kernel_cases env w)
    as [[u [o [E Ho]]] | [[rv [u E]] | [u [s E]]]].
  - destruct Ho as [Ho | Ho]; subst o.
    + rewrite (ll_helper_run env m path w _ E) in H.
      assert (Hw : w' = snd (rule_added env m path
                               (ensured env (log (EvUname 0 u) w))))
        by (inversion H; reflexivity).
      clear H. subst w'.
      destruct (rule_added_trace env m path (ensured env (log (EvUname 0 u) w)))
        as [pfd [r' [cl [_ [_ Ht]]]]].
      split; [|split].
      * destruct (ensured_cfg env (log (EvUname 0 u) w)) as [El _].
        cbn [rule_added snd log cfg_lprofile]. exact El.
      * intros Hfd. cbn [rule_added snd log rset_fd].
        rewrite ensured_rset_fd by exact Hfd. reflexivity.
      * rewrite Ht. unfold probed_paths. read_trace.
        destruct (rset_fd (log (EvUname 0 u) w) =? -1);
          cbn [collect flat_map app]; rewrite ?app_nil_r; reflexivity.
    + rewrite (ll_helper_old env m path w _ 1 E) in H by lia.
      inversion H; subst.
      split; [reflexivity|]. split; [reflexivity|].
      unfold probed_paths. read_trace. rewrite ?app_nil_r. reflexivity.
  - unfold ll_helper, bind in H. rewrite E in H. discriminate.
  - unfold ll_helper, bind in H. rewrite E in H. discriminate.
Qed.

Lemma dispatch_helper (data : string) (o : option string)
      (fnc : string -> M Z) :
  dispatch env data = Some (o, fnc) -> exists m, fnc = ll_helper env m.
Proof.
  unfold dispatch.
  destruct (prefix "landlock.read" data);
    [|destruct (prefix "landlock.write" data);
      [|destruct (prefix "landlock.special" data);
        [|destruct (prefix "landlock.execute" data)]]];
    intros H; inversion H; subst; eexists; reflexivity.
Qed.

Lemma entry_kept (m : Z) (fname : string) (rest : M unit) (w w' : world) :
  walk_entry env (ll_helper env m) fname rest w = Ret tt w' ->
  exists wb, kept [fname] w wb /\ rest wb = Ret tt w'.
Proof.
  intros H. unfold walk_entry in H.
  apply bind_inv in H. destruct H as [a [wa [Ha H]]].
  apply bind_inv in H. destruct H as [[] [wb [Hb H]]].
  exists wb. split; [|exact H].
  unfold syscall in Ha. inversion Ha; subst. clear Ha.
  assert (Hab : kept [] (log (EvCall (SysAccess fname)
                                (k_call env (trace w) (SysAccess fname))) w) wb).
  { destruct (k_call env (trace w) (SysAccess fname) =? 0).
    - apply bind_inv in Hb. destruct Hb as [r [wf [Hf Hb]]].
      apply helper_kept in Hf.
      destruct (negb (r =? 0)).
      + inversion Hb; subst.
        apply (kept_trans [] [] _ wf _ Hf).
        apply kept_log. intros p r0 Hc. discriminate Hc.
      + inversion Hb; subst. exact Hf.
    - inversion Hb; subst. split; [reflexivity|]. split; [reflexivity|].
      rewrite app_nil_r. reflexivity. }
  assert (Hwa : kept [fname] w
                  (log (EvCall (SysAccess fname)
                          (k_call env (trace w) (SysAccess fname))) w)).
  { split; [reflexivity|]. split; [reflexivity|].
    unfold probed_paths. read_trace. reflexivity. }
  exact (kept_trans [fname] [] _ _ _ Hwa Hab).
Qed.

(** The walk keeps the list and a set [rset_fd]; the paths it probes are the
    directive paths when every entry has one. *)
Lemma walk_kept_gen (l : list string) (w w' : world) :
  ll_restrict_walk env l w = Ret tt w' ->
  exists ps,
    kept ps w w'
    /\ ((forall d, In d l -> directive_path env d <> None) ->
        ps = directive_paths env l).
Proof.
  revert w. induction l as [|d l IH]; intros w H.
  - inversion H; subst. exists []. split; [|reflexivity].
    split; [reflexivity|]. split; [reflexivity|].
    rewrite app_nil_r. reflexivity.
  - cbn [ll_restrict_walk] in H.
    destruct (dispatch env d) as [[[fname|] fnc]|] eqn:Hd; try discriminate.
    + destruct (dispatch_helper d _ fnc Hd) as [m Hm]. subst fnc.
      apply entry_kept in H. destruct H as [wb [Hk H]].
      apply IH in H. destruct H as [ps [Hps Hwf]].
      exists ([fname] ++ ps). split; [exact (kept_trans _ _ _ _ _ Hk Hps)|].
      intros Hall. cbn [directive_paths flat_map]. unfold directive_path at 1.
      rewrite Hd. fold (directive_paths env l). f_equal.
      apply Hwf. intros d' Hin. apply Hall. right. exact Hin.
    + destruct (dispatch_helper d _ fnc Hd) as [m Hm]. subst fnc.
      apply entry_kept in H. destruct H as [wb [Hk H]].
      apply IH in H. destruct H as [ps [Hps _]].
      exists ([k_stray env (trace w) d] ++ ps).
      split; [exact (kept_trans _ _ _ _ _ Hk Hps)|].
      intros Hall. exfalso. apply (Hall d); [left; reflexivity|].
      unfold directive_path. rewrite Hd. reflexivity.
Qed.

Lemma walk_kept (l : list string) (w w' : world) :
  (forall d, In d l -> directive_path env d <> None) ->
  ll_restrict_walk env l w = Ret tt w' ->
  kept (directive_paths env l) w w'.
Proof.
  intros Hwf H. destruct (walk_kept_gen l w w' H) as [ps [Hk Hps]].
  rewrite <- (Hps Hwf). exact Hk.
Qed.

Lemma commit_total (flags : Z) (w : world) :
  exists r w',
    ll_restrict_commit env flags w = Ret r w'
    /\ kept [] w w'
    /\ rset_fd w' = rset_fd w
    /\ restrict_calls (trace w') =
         restrict_calls (trace w)
           ++ (if rset_fd w =? -1 then [] else [(rset_fd w, flags)])
    /\ (rset_fd w <> -1 ->
        r = k_call env (trace w ++ [EvCall SysPrctlNoNewPrivs
                                      (k_call env (trace w) SysPrctlNoNewPrivs)])
              (SysRestrictSelf (rset_fd w) flags)).
Proof.
  rewrite commit_run.
  destruct (rset_fd w =? -1) eqn:Hfd.
  - exists 0, w. split; [reflexivity|].
    split; [|split; [reflexivity|split]].
    + split; [reflexivity|]. split; [reflexivity|].
      rewrite app_nil_r. reflexivity.
    + rewrite app_nil_r. reflexivity.
    + apply Z.eqb_eq in Hfd. intros; contradiction.
  - cbn zeta.
    destruct (k_call env _ (SysRestrictSelf (rset_fd w) flags) =? 0) eqn:Hr.
    + eexists. eexists. split; [reflexivity|].
      split; [|split; [reflexivity|split]].
      * split; [reflexivity|]. split; [reflexivity|].
        unfold probed_paths. read_trace. rewrite !app_nil_r. reflexivity.
      * unfold restrict_calls. read_trace. rewrite !app_nil_r. reflexivity.
      * intros _. apply Z.eqb_eq in Hr. rewrite trace_log in Hr.
        symmetry. exact Hr.
    + eexists. eexists. split; [reflexivity|].
      split; [|split; [reflexivity|split]].
      * split; [reflexivity|]. split; [reflexivity|].
        unfold probed_paths. read_trace. rewrite !app_nil_r. reflexivity.
      * unfold restrict_calls. read_trace. rewrite !app_nil_r. reflexivity.
      * intros _. reflexivity.
Qed.

End WalkFacts.

(** ** The order of the directive list *)

Section OrderFacts.

Context {uapi : LandlockUapi}.
Variable env : kernel.
Variable u : utsname.
Hypothesis Hsteady : steady_supported env u.

Lemma old_kernel_steady (w : world) :
  old_kernel env w = Ret 0 (log (EvUname 0 u) w).
Proof.
  destruct Hsteady as [Hu [major [minor [Hs Hv]]]].
  rewrite (old_kernel_parsed env w u major minor (Hu (trace w)) Hs).
  apply Z.ltb_ge in Hv. rewrite Hv. reflexivity.
Qed.

Lemma helper_steady (m : Z) (path : string) (w : world) :
  exists r w', ll_helper env m path w = Ret r w'.
Proof.
  rewrite (ll_helper_run env m path w _ (old_kernel_steady w)).
  eexists. eexists. reflexivity.
Qed.

Lemma walk_steady (l : list string) (w : world) :
  (forall d, In d l -> directive_path env d <> None) ->
  exists w', ll_restrict_walk env l w = Ret tt w'.
Proof.
  revert w. induction l as [|d l IH]; intros w Hwf.
  - exists w. reflexivity.
  - assert (Hd : directive_path env d <> None) by (apply Hwf; left; reflexivity).
    unfold directive_path in Hd. cbn [ll_restrict_walk].
    destruct (dispatch env d) as [[[fname|] fnc]|] eqn:E;
      try (exfalso; apply Hd; reflexivity).
    destruct (dispatch_helper env d _ fnc E) as [m Hm]. subst fnc.
    unfold walk_entry, bind at 1, syscall at 1.
    assert (Hstep : exists wb,
               (if k_call env (trace w) (SysAccess fname) =? 0
                then bind (ll_helper env m fname)
                       (fun r => if negb (r =? 0)
                                 then fprintf_stderr (err_add_rule fname)
                                 else ret tt)
                else ret tt)
                 (log (EvCall (SysAccess fname)
                         (k_call env (trace w) (SysAccess fname))) w)
               = Ret tt wb).
    { destruct (k_call env (trace w) (SysAccess fname) =? 0).
      - destruct (helper_steady m fname
                    (log (EvCall (SysAccess fname)
                            (k_call env (trace w) (SysAccess fname))) w))
          as [r [wf Hf]].
        unfold bind. rewrite Hf.
        destruct (negb (r =? 0)); eexists; reflexivity.
      - eexists. reflexivity. }
    destruct Hstep as [wb Hb]. unfold bind at 1. rewrite Hb.
    apply IH. intros d' Hin. apply Hwf. right. exact Hin.
Qed.

Hypothesis Halloc : allocations_succeed env.

Lemma add_profile_steady (d : string) (w : world) :
  exists w', ll_add_profile env d w = Ret tt w'
             /\ cfg_lprofile w' = d :: cfg_lprofile w.
Proof.
  unfold ll_add_profile, bind at 1. rewrite old_kernel_steady.
  cbn [Z.eqb negb]. unfold bind at 1, syscall at 1.
  destruct (Halloc (trace (log (EvUname 0 u) w))) as [Hm _].
  apply Z.eqb_neq in Hm. rewrite Hm.
  unfold bind at 1, syscall at 1.
  unfold bind at 1, syscall at 1.
  match goal with
  | |- context [k_call env ?t (LibStrdup d)] =>
      destruct (Halloc t) as [_ Hs]; specialize (Hs d);
      apply Z.eqb_neq in Hs; rewrite Hs
  end.
  eexists. split; reflexivity.
Qed.

Lemma add_profiles_steady (ds : list string) (w : world) :
  exists w', add_profiles env ds w = Ret tt w'
             /\ cfg_lprofile w' = rev ds ++ cfg_lprofile w.
Proof.
  revert w. induction ds as [|d ds IH]; intros w.
  - exists w. split; reflexivity.
  - destruct (add_profile_steady d w) as [w1 [H1 Hl1]].
    destruct (IH w1) as [w2 [H2 Hl2]].
    exists w2. split.
    + cbn [add_profiles]. unfold bind. rewrite H1. exact H2.
    + rewrite Hl2, Hl1. cbn [rev]. rewrite <- app_assoc. reflexivity.
Qed.

End OrderFacts.

Lemma directive_paths_rev {uapi : LandlockUapi} (env : kernel) (l : list string) :
  directive_paths env (rev l) = rev (directive_paths env l).
Proof.
  unfold directive_paths. induction l as [|d l IH].
  - reflexivity.
  - cbn [rev flat_map]. rewrite flat_map_app, IH, rev_app_distr.
    cbn [flat_map]. rewrite app_nil_r.
    destruct (directive_path env d); reflexivity.
Qed.

(** C2, as amended.  [ll_add_profile] puts each new entry at the head of
    [cfg.lprofile], so after the calls [d1 .. dn] the list is
    [dn; ..; d1], and [ll_restrict] walks it from the head: the paths it
    gives to [access] are those of [dn], ..., [d1], in that order. *)
Theorem directives_walked_newest_first {uapi : LandlockUapi} (env : kernel)
        (u : utsname) (ds : list string) (flags : Z) (w : world) :
  steady_supported env u ->
  allocations_succeed env ->
  cfg_lprofile w = [] ->
  (forall d, In d ds -> directive_path env d <> None) ->
  exists w1 r w2,
    add_profiles env ds w = Ret tt w1
    /\ cfg_lprofile w1 = rev ds
    /\ ll_restrict env flags w1 = Ret r w2
    /\ probed_paths (trace w2) =
         probed_paths (trace w1) ++ rev (directive_paths env ds).
Proof.
  intros Hsteady Halloc Hnil Hwf.
  destruct (add_profiles_steady env u Hsteady Halloc ds w) as [w1 [Ha Hl]].
  rewrite Hnil, app_nil_r in Hl.
  pose proof (old_kernel_steady env u Hsteady w1) as Hk.
  destruct (walk_steady env u Hsteady (rev ds)
              (log (EvUname 0 u) w1)) as [wb Hwalk].
  { intros d Hin. apply Hwf. apply in_rev. exact Hin. }
  assert (Hwf' : forall d, In d (rev ds) -> directive_path env d <> None)
    by (intros d Hin; apply Hwf; apply in_rev; exact Hin).
  destruct (walk_kept env _ _ wb Hwf' Hwalk) as [_ [_ Hp]].
  destruct (commit_total env flags wb) as [r [w2 [Hc [[_ [_ Hp2]] _]]]].
  exists w1, r, w2. split; [exact Ha|]. split; [exact Hl|]. split.
  - rewrite (ll_restrict_run env flags w1 _ Hk).
    change (cfg_lprofile (log (EvUname 0 u) w1)) with (cfg_lprofile w1).
    rewrite Hl. unfold bind. rewrite Hwalk. exact Hc.
  - rewrite Hp2, Hp, directive_paths_rev. unfold probed_paths. read_trace.
    rewrite !app_nil_r. reflexivity.
Qed.

Lemma test_kernel_steady (rel : string) (exists_path : string -> bool)
      (major minor : Z) :
  Scan.sscanf_u_dot_u rel = Some (major, minor) ->
  min_version_code <= version_code major minor ->
  steady_supported (test_kernel rel exists_path)
    {| release := rel; version := "#1 SMP" |}.
Proof.
  intros Hs Hv. split.
  - intros t. reflexivity.
  - exists major, minor. split; assumption.
Defined.

Lemma test_kernel_allocates (rel : string) (exists_path : string -> bool) :
  allocations_succeed (test_kernel rel exists_path).
Proof.
  intros t. split.
  - cbn. discriminate.
  - intros d. cbn. discriminate.
Defined.

Lemma directives_walked_newest_first_witness :
  exists w1 r w2,
    add_profiles (test_kernel "6.5.0" (fun _ => true))
      ["landlock.read /a"; "landlock.write /b"] init_world = Ret tt w1
    /\ cfg_lprofile w1 = rev ["landlock.read /a"; "landlock.write /b"]
    /\ ll_restrict (test_kernel "6.5.0" (fun _ => true)) 0 w1 = Ret r w2
    /\ probed_paths (trace w2) =
         probed_paths (trace w1)
           ++ rev (directive_paths (test_kernel "6.5.0" (fun _ => true))
                     ["landlock.read /a"; "landlock.write /b"]).
Proof.
  apply (directives_walked_newest_first (test_kernel "6.5.0" (fun _ => true))
           {| release := "6.5.0"; version := "#1 SMP" |}
           ["landlock.read /a"; "landlock.write /b"] 0 init_world).
  - apply (test_kernel_steady "6.5.0" (fun _ => true) 6 5).
    + reflexivity.
    + vm_compute. discriminate.
  - apply test_kernel_allocates.
  - reflexivity.
  - intros d [Hd | [Hd | []]]; subst d; vm_compute; discriminate.
Defined.

(** C2, as stated, fails: after [ll_add_profile "landlock.read /a"] and then
    [ll_add_profile "landlock.write /b"], the list starts with the second
    entry and [ll_restrict] handles "/b" before "/a". *)
Lemma directive_order_counterexample :
  exists w1 r w2,
    add_profiles (test_kernel "6.5.0" (fun _ => true))
      ["landlock.read /a"; "landlock.write /b"] init_world = Ret tt w1
    /\ cfg_lprofile w1 = ["landlock.write /b"; "landlock.read /a"]
    /\ ll_restrict (test_kernel "6.5.0" (fun _ => true)) 0 w1 = Ret r w2
    /\ probed_paths (trace w2) = ["/b"; "/a"]
    /\ opened_paths (trace w2) = ["/b"; "/a"]
    /\ added_rules (trace w2) = [(3, 4, 4594); (3, 4, 12)].
Proof. eexists. eexists. eexists. vm_compute. repeat split. Qed.

(** ** Calling [ll_restrict] again *)


Lemma rewalked_refl (w : world) : rewalked [] w w.
Proof.
  unfold rewalked. cbn [map]. rewrite !app_nil_r. repeat split.
Qed.

Lemma rewalked_trans (f1 f2 : list string) (w1 w2 w3 : world) :
  rewalked f1 w1 w2 -> rewalked f2 w2 w3 -> rewalked (f1 ++ f2) w1 w3.
Proof.
  intros [Hfd1 [Hf1 [Ho1 [Hr1 [Hc1 Hs1]]]]] [Hfd2 [Hf2 [Ho2 [Hr2 [Hc2 Hs2]]]]].
  split; [congruence|].
  split; [rewrite Hf2, Hf1, app_assoc; reflexivity|].
  split; [rewrite Ho2, Ho1, app_assoc; reflexivity|].
  split; [rewrite Hr2, Hr1, Hfd1, map_app, app_assoc; reflexivity|].
  split; congruence.
Qed.

Section Rewalk.

Context {uapi : LandlockUapi}.
Variable env : kernel.
Variable u : utsname.
Hypothesis Hsteady : steady_supported env u.

(** One turn of the loop on a steady kernel, with the ruleset descriptor
    set: the path is probed, and when it is found the helper opens it and
    submits one rule on [rset_fd]. *)
Lemma entry_rewalked (m : Z) (fname : string) (rest : M unit) (w : world) :
  rset_fd w <> -1 ->
  exists wb found,
    walk_entry env (ll_helper env m) fname rest w = rest wb
    /\ rewalked found w wb.
Proof.
  intros Hfd. unfold walk_entry, bind at 1, syscall at 1.
  set (a := k_call env (trace w) (SysAccess fname)).
  set (wa := log (EvCall (SysAccess fname) a) w).
  destruct (a =? 0) eqn:Ea.
  - unfold bind at 1 2.
    rewrite (ll_helper_run env m fname wa _ (old_kernel_steady env u Hsteady wa)).
    rewrite (ensured_rset_fd env (log (EvUname 0 u) wa)) by exact Hfd.
    destruct (rule_added_trace env m fname (log (EvUname 0 u) wa))
      as [pfd [r [cl [_ [Hr Ht]]]]].
    rewrite Hr.
    set (wf := snd (rule_added env m fname (log (EvUname 0 u) wa))) in *.
    assert (Hwf : rewalked [fname] w wf).
    { unfold rewalked, found_paths, opened_paths, rule_fds, created_rulesets,
        restrict_results.
      rewrite Ht. unfold wa. read_trace. fold a. rewrite Ea.
      cbn [map app]. rewrite !app_nil_r. repeat split. }
    destruct (negb (r =? 0)).
    + exists (log (EvStderr (err_add_rule fname)) wf), [fname].
      split; [reflexivity|].
      destruct Hwf as [H1 [H2 [H3 [H4 [H5 H6]]]]].
      unfold rewalked, found_paths, opened_paths, rule_fds, created_rulesets,
        restrict_results in *.
      read_trace. rewrite !app_nil_r. repeat split; assumption.
    + exists wf, [fname]. split; [reflexivity | exact Hwf].
  - exists wa, []. split; [reflexivity|].
    unfold rewalked, found_paths, opened_paths, rule_fds, created_rulesets,
      restrict_results, wa.
    read_trace. fold a. rewrite Ea. cbn [map app]. rewrite !app_nil_r.
    repeat split.
Qed.

Lemma walk_rewalked (l : list string) (w : world) :
  rset_fd w <> -1 ->
  (forall d, In d l -> directive_path env d <> None) ->
  exists w' found,
    ll_restrict_walk env l w = Ret tt w' /\ rewalked found w w'.
Proof.
  revert w. induction l as [|d l IH]; intros w Hfd Hwf.
  - exists w, []. split; [reflexivity | apply rewalked_refl].
  - assert (Hd : directive_path env d <> None) by (apply Hwf; left; reflexivity).
    unfold directive_path in Hd. cbn [ll_restrict_walk].
    destruct (dispatch env d) as [[[fname|] fnc]|] eqn:E;
      try (exfalso; apply Hd; reflexivity).
    destruct (dispatch_helper env d _ fnc E) as [m Hm]. subst fnc.
    destruct (entry_rewalked m fname (ll_restrict_walk env l) w Hfd)
      as [wb [f1 [Hstep R1]]].
    destruct (IH wb) as [w' [f2 [Hw R2]]].
    { destruct R1 as [Hfd1 _]. rewrite Hfd1. exact Hfd. }
    { intros d' Hin. apply Hwf. right. exact Hin. }
    exists w', (f1 ++ f2). split; [rewrite Hstep; exact Hw|].
    exact (rewalked_trans f1 f2 w wb w' R1 R2).
Qed.

End Rewalk.

(** C1, as amended.  Take a kernel that keeps passing the probe, a directive
    list in which every entry has a keyword and a path, and a first
    [ll_restrict] call that commits: after its walk [rset_fd] is set, and
    [landlock_restrict_self] returns 0.  That call returns 0 and closes the
    descriptor; [rset_fd] keeps the number and the list is untouched.  A
    second call is then not a no-op: it gives every directive path to
    [access] again, runs the helper again for each path [access] finds (the
    path is opened and one rule is submitted on the same descriptor number),
    creates no ruleset, calls [landlock_restrict_self] on the same number
    once more, and returns what that call returns. *)
Theorem second_restrict_walks_again {uapi : LandlockUapi} (env : kernel)
        (u : utsname) (flags : Z) (w wa : world) :
  steady_supported env u ->
  (forall d, In d (cfg_lprofile w) -> directive_path env d <> None) ->
  ll_restrict_walk env (cfg_lprofile w) (log (EvUname 0 u) w) = Ret tt wa ->
  rset_fd wa <> -1 ->
  k_call env (trace wa ++ [EvCall SysPrctlNoNewPrivs
                             (k_call env (trace wa) SysPrctlNoNewPrivs)])
    (SysRestrictSelf (rset_fd wa) flags) = 0 ->
  exists w1,
    ll_restrict env flags w = Ret 0 w1
    /\ closed (trace w1) = closed (trace wa) ++ [rset_fd wa]
    /\ rset_fd w1 = rset_fd wa
    /\ cfg_lprofile w1 = cfg_lprofile w
    /\ exists r2 w2 found,
         ll_restrict env flags w1 = Ret r2 w2
         /\ probed_paths (trace w2) =
              probed_paths (trace w1) ++ directive_paths env (cfg_lprofile w)
         /\ found_paths (trace w2) = found_paths (trace w1) ++ found
         /\ opened_paths (trace w2) = opened_paths (trace w1) ++ found
         /\ rule_fds (trace w2) =
              rule_fds (trace w1) ++ map (fun _ => rset_fd wa) found
         /\ created_rulesets (trace w2) = created_rulesets (trace w1)
         /\ restrict_results (trace w2) =
              restrict_results (trace w1) ++ [(rset_fd wa, flags, r2)].
Proof.
  intros Hsteady Hwf Hwalk Hfd Hr.
  pose proof (old_kernel_steady env u Hsteady w) as Hk.
  destruct (walk_kept env _ _ wa Hwf Hwalk) as [Hl _].
  change (cfg_lprofile (log (EvUname 0 u) w)) with (cfg_lprofile w) in Hl.
  pose proof Hfd as Hfd'. apply Z.eqb_neq in Hfd'.
  set (w3 := log (EvCall (SysRestrictSelf (rset_fd wa) flags) 0)
               (log (EvCall SysPrctlNoNewPrivs
                       (k_call env (trace wa) SysPrctlNoNewPrivs)) wa)).
  set (w1 := log (EvCall (SysClose (rset_fd wa))
                    (k_call env (trace w3) (SysClose (rset_fd wa)))) w3).
  assert (H1 : ll_restrict env flags w = Ret 0 w1).
  { rewrite (ll_restrict_run env flags w _ Hk). unfold bind at 1.
    change (cfg_lprofile (log (EvUname 0 u) w)) with (cfg_lprofile w).
    rewrite Hwalk, commit_run, Hfd'. cbn zeta. rewrite trace_log, Hr.
    reflexivity. }
  exists w1. split; [exact H1|].
  split; [unfold w1, w3, closed; read_trace; rewrite !app_nil_r; reflexivity|].
  split; [reflexivity|]. split; [exact Hl|].
  pose proof (old_kernel_steady env u Hsteady w1) as Hk1.
  destruct (walk_rewalked env u Hsteady (cfg_lprofile w) (log (EvUname 0 u) w1))
    as [wb [found [Hwb [Hfb [Hfo [Hop [Hrf [Hcr Hrs]]]]]]]];
    [exact Hfd | exact Hwf |].
  destruct (walk_kept env _ _ wb Hwf Hwb) as [_ [_ Hp]].
  change (rset_fd (log (EvUname 0 u) w1)) with (rset_fd wa) in Hfb, Hrf.
  destruct (commit_total env flags wb) as [r2 [w2 [Hc _]]].
  pose proof Hc as Hc'. rewrite commit_run, Hfb, Hfd' in Hc'. cbn zeta in Hc'.
  set (p := k_call env (trace wb) SysPrctlNoNewPrivs) in *.
  set (wp := log (EvCall SysPrctlNoNewPrivs p) wb) in *.
  set (r := k_call env (trace wp) (SysRestrictSelf (rset_fd wa) flags)) in *.
  assert (Hw2 : r2 = r /\
                exists tail, trace w2 = trace wb
                  ++ [EvCall SysPrctlNoNewPrivs p;
                      EvCall (SysRestrictSelf (rset_fd wa) flags) r2] ++ tail
                  /\ (tail = [] \/ exists c, tail = [EvCall (SysClose (rset_fd wa)) c])).
  { destruct (r =? 0) eqn:Er.
    - apply Z.eqb_eq in Er. inversion Hc'. split; [congruence|].
      eexists. split.
      + unfold wp. rewrite !trace_log, <- !app_assoc, Er. reflexivity.
      + right. eexists. reflexivity.
    - inversion Hc'. split; [reflexivity|]. exists []. split.
      + unfold wp. rewrite !trace_log, <- !app_assoc. reflexivity.
      + left. reflexivity. }
  destruct Hw2 as [Hr2 [tail [Ht Htail]]].
  exists r2, w2, found. split.
  - rewrite (ll_restrict_run env flags w1 _ Hk1). unfold bind at 1.
    change (cfg_lprofile (log (EvUname 0 u) w1)) with (cfg_lprofile w1).
    change (cfg_lprofile w1) with (cfg_lprofile wa). rewrite Hl, Hwb. exact Hc.
  - unfold probed_paths, found_paths, opened_paths, rule_fds, created_rulesets,
      restrict_results in *.
    rewrite Ht.
    destruct Htail as [Htl | [c Htl]]; subst tail; read_trace;
      rewrite Hp, Hfo, Hop, Hrf, Hcr, Hrs; read_trace; rewrite !app_nil_r;
      repeat split.
Qed.

Lemma second_restrict_walks_again_witness :
  exists w1,
    ll_restrict (test_kernel "6.5.0" (fun _ => true)) 0
      (with_lprofile ["landlock.read /etc"] init_world) = Ret 0 w1
    /\ closed (trace w1) = [4] ++ [3]
    /\ rset_fd w1 = 3
    /\ cfg_lprofile w1 = ["landlock.read /etc"]
    /\ exists r2 w2 found,
         ll_restrict (test_kernel "6.5.0" (fun _ => true)) 0 w1 = Ret r2 w2
         /\ probed_paths (trace w2) = probed_paths (trace w1) ++ ["/etc"]
         /\ found_paths (trace w2) = found_paths (trace w1) ++ found
         /\ opened_paths (trace w2) = opened_paths (trace w1) ++ found
         /\ rule_fds (trace w2) = rule_fds (trace w1) ++ map (fun _ => 3) found
         /\ created_rulesets (trace w2) = created_rulesets (trace w1)
         /\ restrict_results (trace w2) =
              restrict_results (trace w1) ++ [(3, 0, r2)].
Proof.
  exact (second_restrict_walks_again (test_kernel "6.5.0" (fun _ => true))
           {| release := "6.5.0"; version := "#1 SMP" |} 0
           (with_lprofile ["landlock.read /etc"] init_world)
           (snd (rule_added (test_kernel "6.5.0" (fun _ => true)) read_access "/etc"
                   (ensured (test_kernel "6.5.0" (fun _ => true))
                      (logs [EvUname 0 {| release := "6.5.0"; version := "#1 SMP" |};
                             EvCall (SysAccess "/etc") 0;
                             EvUname 0 {| release := "6.5.0"; version := "#1 SMP" |}]
                         (with_lprofile ["landlock.read /etc"] init_world)))))
           (test_kernel_steady "6.5.0" (fun _ => true) 6 5 eq_refl
              ltac:(vm_compute; discriminate))
           ltac:(intros d [Hd | []]; subst d; vm_compute; discriminate)
           eq_refl ltac:(cbn; lia) eq_refl).
Defined.

(** C1, as stated, fails.  One directive, a 6.5 kernel on which every path
    exists: the first call commits and returns 0; the second call adds the
    rule a second time, calls [landlock_restrict_self] on descriptor 3 a
    second time, and returns the -1 it gets for the closed descriptor. *)
Lemma second_restrict_counterexample :
  exists w1 w2,
    ll_restrict (test_kernel "6.5.0" (fun _ => true)) 0
      (with_lprofile ["landlock.read /etc"] init_world) = Ret 0 w1
    /\ restrict_calls (trace w1) = [(3, 0)]
    /\ closed (trace w1) = [4; 3]
    /\ ll_restrict (test_kernel "6.5.0" (fun _ => true)) 0 w1 = Ret (-1) w2
    /\ restrict_calls (trace w2) = [(3, 0); (3, 0)]
    /\ added_rules (trace w2) = [(3, 4, 12); (3, 4, 12)]
    /\ probed_paths (trace w2) = ["/etc"; "/etc"].
Proof. eexists. eexists. vm_compute. repeat split. Qed.

(** * Further properties of landlock.c *)

(** ** Kernels the probe rejects *)

(** X1.  On a kernel the probe reports as old, every helper returns 1, and
    [ll_basic_system] and [ll_restrict] return (the latter 0); each writes
    the one warning line and does nothing else: the state differs from the
    initial one by the [uname] call and that line only. *)
Theorem old_kernel_entry_points_warn {uapi : LandlockUapi} (env : kernel)
        (w w0 : world) (o : Z) :
  old_kernel env w = Ret o w0 ->
  o <> 0 ->
  (exists u, w0 = log (EvUname 0 u) w)
  /\ (forall c path,
        helper_of env c path w = Ret 1 (log (EvStderr warn_not_enabled) w0))
  /\ ll_basic_system env w = Ret tt (log (EvStderr warn_not_enabled) w0)
  /\ (forall flags,
        ll_restrict env flags w = Ret 0 (log (EvStderr warn_not_enabled) w0)).
Proof.
  intros H Ho. split; [exact (old_kernel_ret env w w0 o H)|].
  pose proof Ho as Ho'. apply Z.eqb_neq in Ho'.
  split; [|split].
  - intros c path. rewrite helper_of_eq.
    apply (ll_helper_old env _ path w w0 o H Ho).
  - unfold ll_basic_system, bind at 1. rewrite H, Ho'. reflexivity.
  - intros flags. unfold ll_restrict, bind at 1. rewrite H, Ho'. reflexivity.
Qed.

Lemma old_kernel_entry_points_warn_witness :
  ll_basic_system (test_kernel "5.15.0" (fun _ => true)) init_world =
    Ret tt (logs [EvUname 0 {| release := "5.15.0"; version := "#1 SMP" |};
                  EvStderr warn_not_enabled] init_world)
  /\ ll_restrict (test_kernel "5.15.0" (fun _ => true)) 0 init_world =
    Ret 0 (logs [EvUname 0 {| release := "5.15.0"; version := "#1 SMP" |};
                 EvStderr warn_not_enabled] init_world).
Proof.
  destruct (old_kernel_entry_points_warn (test_kernel "5.15.0" (fun _ => true))
              init_world
              (log (EvUname 0 {| release := "5.15.0"; version := "#1 SMP" |}) init_world)
              1 eq_refl ltac:(lia)) as [_ [_ [Hb Hr]]].
  split; [exact Hb | exact (Hr 0)].
Defined.

(** X2.  On a kernel the probe reports as old, [ll_add_profile] drops the
    directive without a word: the list is unchanged, nothing is allocated
    and nothing is written. *)
Theorem add_profile_dropped_on_old_kernel {uapi : LandlockUapi} (env : kernel)
        (data : string) (w w0 : world) (o : Z) :
  old_kernel env w = Ret o w0 ->
  o <> 0 ->
  ll_add_profile env data w = Ret tt w0
  /\ cfg_lprofile w0 = cfg_lprofile w
  /\ stderr_lines (trace w0) = stderr_lines (trace w)
  /\ collect (fun c _ => if alloc_call c then Some c else None) (trace w0) =
       collect (fun c _ => if alloc_call c then Some c else None) (trace w).
Proof.
  intros H Ho. destruct (old_kernel_ret env w w0 o H) as [u Hw0].
  apply Z.eqb_neq in Ho. split.
  - unfold ll_add_profile, bind at 1. rewrite H, Ho. reflexivity.
  - subst w0. split; [reflexivity|]. read_trace. rewrite !app_nil_r.
    split; reflexivity.
Qed.

Lemma add_profile_dropped_on_old_kernel_witness :
  ll_add_profile (test_kernel "5.15.0" (fun _ => true)) "landlock.read /etc" init_world =
    Ret tt (log (EvUname 0 {| release := "5.15.0"; version := "#1 SMP" |}) init_world)
  /\ cfg_lprofile (log (EvUname 0 {| release := "5.15.0"; version := "#1 SMP" |})
                     init_world) = [].
Proof.
  destruct (add_profile_dropped_on_old_kernel (test_kernel "5.15.0" (fun _ => true))
              "landlock.read /etc" init_world
              (log (EvUname 0 {| release := "5.15.0"; version := "#1 SMP" |}) init_world)
              1 eq_refl ltac:(lia)) as [Ha [Hl _]].
  split; [exact Ha | exact Hl].
Defined.

(** X3.  With a release that [sscanf] cannot read, every entry point of the
    file ends the process with [exit(1)] right after the error line of
    [old_kernel], before it does anything of its own. *)
Theorem unparseable_release_exits_everywhere {uapi : LandlockUapi} (env : kernel)
        (w : world) (u : utsname) :
  k_uname env (trace w) = (0, u) ->
  Scan.sscanf_u_dot_u (release u) = None ->
  let wx := logs [EvUname 0 u;
                  EvStderr ("Error: cannot extract Linux kernel version: "
                              ++ version u ++ nl)%string] w in
  (forall c path, helper_of env c path w = Exit 1 wx)
  /\ ll_basic_system env w = Exit 1 wx
  /\ (forall flags, ll_restrict env flags w = Exit 1 wx)
  /\ (forall data, ll_add_profile env data w = Exit 1 wx).
Proof.
  intros Hu Hs wx.
  assert (Hk : old_kernel env w = Exit 1 wx).
  { unfold old_kernel, bind, uname. rewrite Hu. cbn. rewrite Hs. reflexivity. }
  split; [|split; [|split]].
  - intros c path. rewrite helper_of_eq. unfold ll_helper, bind at 1.
    rewrite Hk. reflexivity.
  - unfold ll_basic_system, bind at 1. rewrite Hk. reflexivity.
  - intros flags. unfold ll_restrict, bind at 1. rewrite Hk. reflexivity.
  - intros data. unfold ll_add_profile, bind at 1. rewrite Hk. reflexivity.
Qed.

Lemma unparseable_release_exits_everywhere_witness :
  ll_add_profile (test_kernel "unknown" (fun _ => true)) "landlock.read /etc" init_world =
    Exit 1 (logs [EvUname 0 {| release := "unknown"; version := "#1 SMP" |};
                  EvStderr ("Error: cannot extract Linux kernel version: "
                              ++ "#1 SMP" ++ nl)%string] init_world).
Proof.
  destruct (unparseable_release_exits_everywhere (test_kernel "unknown" (fun _ => true))
              init_world {| release := "unknown"; version := "#1 SMP" |}
              eq_refl eq_refl) as [_ [_ [_ Ha]]].
  exact (Ha "landlock.read /etc").
Defined.

(** ** Reading a directive *)

Lemma substring_all (s : string) : substring 0 (String.length s) s = s.
Proof. induction s as [|a s IH]; cbn; [reflexivity | rewrite IH; reflexivity]. Qed.

Lemma str_offset_app (pre s : string) :
  str_offset (String.length pre) (pre ++ s)%string = Some s.
Proof.
  induction pre as [|a pre IH].
  - unfold str_offset. cbn. rewrite Nat.sub_0_r, substring_all. reflexivity.
  - exact IH.
Qed.

(** X4.  A directive made of a keyword, any one character and a path is
    dispatched to the helper of that keyword with exactly the path: the
    character after the keyword is skipped without being looked at. *)
Theorem dispatch_keyword_path {uapi : LandlockUapi} (env : kernel)
        (c : access_class) (sep : ascii) (path : string) :
  dispatch env (keyword_of c ++ String sep path)%string =
    Some (Some path, helper_of env c)
  /\ directive_path env (keyword_of c ++ String sep path)%string = Some path.
Proof.
  assert (H : dispatch env (keyword_of c ++ String sep path)%string =
                Some (Some path, helper_of env c)).
  { destruct c; cbn [keyword_of helper_of]; unfold dispatch.
    - change (prefix "landlock.read" ("landlock.read" ++ String sep path)) with true.
      cbn iota.
      exact (f_equal (fun o => Some (o, ll_read env))
               (str_offset_app ("landlock.read" ++ String sep "") path)).
    - change (prefix "landlock.read" ("landlock.write" ++ String sep path)) with false.
      change (prefix "landlock.write" ("landlock.write" ++ String sep path)) with true.
      cbn iota.
      exact (f_equal (fun o => Some (o, ll_write env))
               (str_offset_app ("landlock.write" ++ String sep "") path)).
    - change (prefix "landlock.read" ("landlock.special" ++ String sep path)) with false.
      change (prefix "landlock.write" ("landlock.special" ++ String sep path)) with false.
      change (prefix "landlock.special" ("landlock.special" ++ String sep path)) with true.
      cbn iota.
      exact (f_equal (fun o => Some (o, ll_special env))
               (str_offset_app ("landlock.special" ++ String sep "") path)).
    - change (prefix "landlock.read" ("landlock.execute" ++ String sep path)) with false.
      change (prefix "landlock.write" ("landlock.execute" ++ String sep path)) with false.
      change (prefix "landlock.special" ("landlock.execute" ++ String sep path)) with false.
      change (prefix "landlock.execute" ("landlock.execute" ++ String sep path)) with true.
      cbn iota.
      exact (f_equal (fun o => Some (o, ll_exec env))
               (str_offset_app ("landlock.execute" ++ String sep "") path)). }
  split; [exact H|]. unfold directive_path. rewrite H. reflexivity.
Qed.

(** X5.  The walk stops at an entry that starts with none of the four
    keywords: the [assert] fails in the state the entries before it left,
    and the entries after it are never reached.  [ll_restrict] then ends
    there too, before the commit. *)
Theorem walk_stops_at_unknown_keyword {uapi : LandlockUapi} (env : kernel)
        (pre : list string) (data : string) (next : list string) (w w1 : world) :
  ll_restrict_walk env pre w = Ret tt w1 ->
  (forall c, prefix (keyword_of c) data = false) ->
  ll_restrict_walk env (pre ++ data :: next) w = Abort w1
  /\ (forall flags wi,
        old_kernel env wi = Ret 0 w ->
        cfg_lprofile w = pre ++ data :: next ->
        ll_restrict env flags wi = Abort w1).
Proof.
  intros Hpre Hno.
  assert (Hw : ll_restrict_walk env (pre ++ data :: next) w = Abort w1).
  { rewrite walk_app. unfold bind. rewrite Hpre.
    cbn [ll_restrict_walk]. unfold dispatch.
    rewrite (Hno Read : prefix "landlock.read" data = false).
    rewrite (Hno Write : prefix "landlock.write" data = false).
    rewrite (Hno Special : prefix "landlock.special" data = false).
    rewrite (Hno Execute : prefix "landlock.execute" data = false).
    reflexivity. }
  split; [exact Hw|].
  intros flags wi Hk Hl.
  rewrite (ll_restrict_run env flags wi w Hk). unfold bind.
  rewrite Hl, Hw. reflexivity.
Qed.

Lemma walk_stops_at_unknown_keyword_witness :
  ll_restrict_walk (test_kernel "6.5.0" (fun _ => true))
    ([] ++ "seccomp" :: ["landlock.read /etc"])
    (log (EvUname 0 {| release := "6.5.0"; version := "#1 SMP" |})
       (with_lprofile ["seccomp"; "landlock.read /etc"] init_world))
  = Abort (log (EvUname 0 {| release := "6.5.0"; version := "#1 SMP" |})
             (with_lprofile ["seccomp"; "landlock.read /etc"] init_world))
  /\ ll_restrict (test_kernel "6.5.0" (fun _ => true)) 0
       (with_lprofile ["seccomp"; "landlock.read /etc"] init_world)
     = Abort (log (EvUname 0 {| release := "6.5.0"; version := "#1 SMP" |})
                (with_lprofile ["seccomp"; "landlock.read /etc"] init_world)).
Proof.
  destruct (walk_stops_at_unknown_keyword (test_kernel "6.5.0" (fun _ => true))
              [] "seccomp" ["landlock.read /etc"]
              (log (EvUname 0 {| release := "6.5.0"; version := "#1 SMP" |})
                 (with_lprofile ["seccomp"; "landlock.read /etc"] init_world))
              (log (EvUname 0 {| release := "6.5.0"; version := "#1 SMP" |})
                 (with_lprofile ["seccomp"; "landlock.read /etc"] init_world))
              eq_refl ltac:(intros c; destruct c; reflexivity)) as [Hw Hr].
  split; [exact Hw|].
  exact (Hr 0 (with_lprofile ["seccomp"; "landlock.read /etc"] init_world)
           eq_refl eq_refl).
Defined.

(** X6.  A helper that fails inside the walk does not stop it: for an entry
    whose path exists, the helper's non-zero result costs one error line
    naming the path, and the walk goes on with the next entry either way. *)
Theorem walk_continues_after_helper_failure {uapi : LandlockUapi} (env : kernel)
        (pre : list string) (data : string) (next : list string)
        (w w1 wf : world) (fname : string) (fnc : string -> M Z) (r : Z) :
  ll_restrict_walk env pre w = Ret tt w1 ->
  dispatch env data = Some (Some fname, fnc) ->
  k_call env (trace w1) (SysAccess fname) = 0 ->
  fnc fname (log (EvCall (SysAccess fname) 0) w1) = Ret r wf ->
  ll_restrict_walk env (pre ++ data :: next) w =
    ll_restrict_walk env next
      (if r =? 0 then wf else log (EvStderr (err_add_rule fname)) wf).
Proof.
  intros Hpre Hd Ha Hf. rewrite walk_app. unfold bind at 1. rewrite Hpre.
  cbn [ll_restrict_walk]. rewrite Hd.
  unfold walk_entry, bind at 1 2 3, syscall at 1. rewrite Ha. cbn [Z.eqb]. rewrite Hf.
  destruct (r =? 0); reflexivity.
Qed.

Lemma walk_continues_after_helper_failure_witness :
  exists wf,
    ll_restrict_walk (test_kernel "6.5.0" (fun _ => true))
      ([] ++ "landlock.read /etc" :: ["landlock.write /tmp"])
      (with_rset_fd 7 init_world) =
    ll_restrict_walk (test_kernel "6.5.0" (fun _ => true)) ["landlock.write /tmp"]
      (log (EvStderr (err_add_rule "/etc")) wf).
Proof.
  eexists.
  apply (walk_continues_after_helper_failure (test_kernel "6.5.0" (fun _ => true))
           [] "landlock.read /etc" ["landlock.write /tmp"]
           (with_rset_fd 7 init_world) (with_rset_fd 7 init_world) _ "/etc"
           (ll_read (test_kernel "6.5.0" (fun _ => true))) (-1)
           eq_refl eq_refl eq_refl).
  vm_compute. reflexivity.
Defined.

(** ** Failures the helpers do not look at *)

(** X7.  A helper does not check what [ll_create_ruleset] returned: when the
    creation fails with -1, the rule is still submitted, on descriptor -1,
    and [rset_fd] is still -1 afterwards, so the next helper call tries to
    create the ruleset again. *)
Theorem create_failure_unchecked {uapi : LandlockUapi} (env : kernel)
        (c : access_class) (path : string) (w w0 : world) :
  old_kernel env w = Ret 0 w0 ->
  rset_fd w = -1 ->
  k_call env (trace w0) (SysCreateRuleset full_ruleset_mask 0) = -1 ->
  exists r w',
    helper_of env c path w = Ret r w'
    /\ rset_fd w' = -1
    /\ created_rulesets (trace w') =
         created_rulesets (trace w) ++ [(full_ruleset_mask, 0)]
    /\ exists pfd,
         added_rules (trace w') =
           added_rules (trace w) ++ [(-1, pfd, class_access c)].
Proof.
  intros H Hfd Hcr. destruct (old_kernel_ret env w w0 0 H) as [u Hw0].
  rewrite helper_of_eq, (ll_helper_run env _ path w w0 H).
  assert (Hfd0 : (rset_fd w0 =? -1) = true)
    by (subst w0; cbn [log rset_fd]; rewrite Hfd; reflexivity).
  assert (He : rset_fd (ensured env w0) = -1)
    by (unfold ensured; rewrite Hfd0, Hcr; reflexivity).
  destruct (rule_added_trace env (class_access c) path (ensured env w0))
    as [pfd [r [cl [_ [_ Ht]]]]].
  eexists. eexists. split; [reflexivity|].
  split; [exact He|]. split.
  - rewrite Ht. unfold created_rulesets. read_trace. rewrite Hfd0. subst w0.
    read_trace. rewrite !app_nil_r. reflexivity.
  - exists pfd. rewrite Ht, He. unfold added_rules. read_trace. rewrite Hfd0.
    subst w0. read_trace. rewrite !app_nil_r. reflexivity.
Qed.

Lemma create_failure_unchecked_witness :
  exists r w',
    helper_of (no_ruleset_kernel "6.5.0") Read "/" init_world = Ret r w'
    /\ rset_fd w' = -1
    /\ created_rulesets (trace w') =
         created_rulesets (trace init_world) ++ [(full_ruleset_mask, 0)]
    /\ exists pfd,
         added_rules (trace w') =
           added_rules (trace init_world) ++ [(-1, pfd, class_access Read)].
Proof.
  apply (create_failure_unchecked (no_ruleset_kernel "6.5.0") Read "/" init_world
           (log (EvUname 0 {| release := "6.5.0"; version := "#1 SMP" |}) init_world)
           eq_refl eq_refl eq_refl).
Defined.

(** ** The baseline policy *)

(** X8.  [ll_basic_system] without a home directory in [cfg] fails its
    [assert], but only after the ruleset check: a ruleset that did not exist
    has been created by then, and no rule has been added. *)
Theorem basic_system_needs_homedir {uapi : LandlockUapi} (env : kernel)
        (w w0 : world) :
  old_kernel env w = Ret 0 w0 ->
  cfg_homedir w = None ->
  ll_basic_system env w = Abort (ensured env w0)
  /\ created_rulesets (trace (ensured env w0)) =
       created_rulesets (trace w)
         ++ (if rset_fd w =? -1 then [(full_ruleset_mask, 0)] else [])
  /\ added_rules (trace (ensured env w0)) = added_rules (trace w)
  /\ opened_paths (trace (ensured env w0)) = opened_paths (trace w).
Proof.
  intros H Hh. destruct (old_kernel_ret env w w0 0 H) as [u Hw0].
  split.
  - unfold ll_basic_system, bind at 1. rewrite H. cbn [Z.eqb negb].
    unfold bind at 1. rewrite ensure_ruleset_run.
    destruct (ensured_cfg env w0) as [_ Hc]. rewrite Hc. subst w0.
    cbn [log cfg_homedir]. rewrite Hh. reflexivity.
  - subst w0. unfold created_rulesets, added_rules, opened_paths. read_trace.
    change (rset_fd (log (EvUname 0 u) w)) with (rset_fd w).
    destruct (rset_fd w =? -1); cbn [collect flat_map app];
      rewrite ?app_nil_r; repeat split.
Qed.

Lemma basic_system_needs_homedir_witness :
  exists wa,
    ll_basic_system (test_kernel "6.5.0" (fun _ => true))
      {| rset_fd := -1; cfg_homedir := None; cfg_lprofile := []; trace := [] |}
    = Abort wa
    /\ created_rulesets (trace wa) = [(full_ruleset_mask, 0)]
    /\ added_rules (trace wa) = [].
Proof.
  destruct (basic_system_needs_homedir (test_kernel "6.5.0" (fun _ => true))
              {| rset_fd := -1; cfg_homedir := None; cfg_lprofile := []; trace := [] |}
              (log (EvUname 0 {| release := "6.5.0"; version := "#1 SMP" |})
                 {| rset_fd := -1; cfg_homedir := None; cfg_lprofile := [];
                    trace := [] |})
              eq_refl eq_refl) as [Ha [Hc [Hr _]]].
  eexists. split; [exact Ha|]. split; [exact Hc | exact Hr].
Defined.

Lemma basic_system_prologue {uapi : LandlockUapi} (env : kernel)
      (w w0 : world) (homedir : string) :
  old_kernel env w = Ret 0 w0 ->
  cfg_homedir w = Some homedir ->
  ll_basic_system env w =
    basic_rest env (snd (home_rule_added env homedir (ensured env w0))).
Proof.
  intros H Hh. destruct (old_kernel_ret env w w0 0 H) as [u Hw0].
  unfold ll_basic_system, bind at 1. rewrite H. cbn [Z.eqb negb].
  unfold bind at 1. rewrite ensure_ruleset_run.
  destruct (ensured_cfg env w0) as [_ Hc]. rewrite Hc. subst w0.
  cbn [log cfg_homedir]. rewrite Hh.
  unfold bind at 1, syscall at 1. unfold bind at 1, get_rset_fd.
  unfold bind at 1, ll_add_rule, syscall at 1. unfold bind at 1.
  unfold home_rule_added. cbn [snd log rset_fd trace].
  destruct (k_call env _ (SysAddRule _ _ home_access) =? 0); reflexivity.
Qed.

Lemma home_rule_added_trace {uapi : LandlockUapi} (env : kernel)
      (homedir : string) (w1 : world) :
  let home_fd := k_call env (trace w1) (SysOpen homedir) in
  let r := k_call env (trace w1 ++ [EvCall (SysOpen homedir) home_fd])
             (SysAddRule (rset_fd w1) home_fd home_access) in
  rset_fd (snd (home_rule_added env homedir w1)) = rset_fd w1
  /\ cfg_lprofile (snd (home_rule_added env homedir w1)) = cfg_lprofile w1
  /\ cfg_homedir (snd (home_rule_added env homedir w1)) = cfg_homedir w1
  /\ exists cl,
       trace (snd (home_rule_added env homedir w1)) =
         trace w1
           ++ [EvCall (SysOpen homedir) home_fd;
               EvCall (SysAddRule (rset_fd w1) home_fd home_access) r]
           ++ (if r =? 0 then [] else [EvStderr err_basic])
           ++ [EvCall (SysClose home_fd) cl].
Proof.
  intros home_fd r. unfold home_rule_added. cbn [snd]. fold home_fd.
  change (k_call env (trace (log (EvCall (SysOpen homedir) home_fd) w1))
            (SysAddRule (rset_fd w1) home_fd home_access)) with r.
  destruct (r =? 0); (split; [reflexivity|]); (split; [reflexivity|]);
    (split; [reflexivity|]); eexists;
    rewrite !trace_log, <- !app_assoc; reflexivity.
Qed.

(** X9.  The home directory rule of [ll_basic_system] is best effort.  The
    directory is opened, the rule with the read and write rights is
    submitted on [rset_fd] with the descriptor [open] returned, and that
    descriptor is closed; the error line is written exactly when
    [ll_add_rule] returned non-zero; and whatever it returned, the function
    goes on with the same steps (user id, run directory, chain of helpers)
    from the state reached. *)
Theorem basic_system_home_rule {uapi : LandlockUapi} (env : kernel)
        (w w0 : world) (homedir : string) :
  old_kernel env w = Ret 0 w0 ->
  cfg_homedir w = Some homedir ->
  let w1 := ensured env w0 in
  let home_fd := k_call env (trace w1) (SysOpen homedir) in
  let r := k_call env (trace w1 ++ [EvCall (SysOpen homedir) home_fd])
             (SysAddRule (rset_fd w1) home_fd home_access) in
  exists cl w4,
    ll_basic_system env w = basic_rest env w4
    /\ rset_fd w4 = rset_fd w1
    /\ cfg_lprofile w4 = cfg_lprofile w
    /\ cfg_homedir w4 = cfg_homedir w
    /\ trace w4 =
         trace w1
           ++ [EvCall (SysOpen homedir) home_fd;
               EvCall (SysAddRule (rset_fd w1) home_fd home_access) r]
           ++ (if r =? 0 then [] else [EvStderr err_basic])
           ++ [EvCall (SysClose home_fd) cl].
Proof.
  intros H Hh w1 home_fd r.
  destruct (old_kernel_ret env w w0 0 H) as [u Hw0].
  destruct (home_rule_added_trace env homedir w1) as [Hfd [Hl [Hc [cl Ht]]]].
  destruct (ensured_cfg env w0) as [El Ec].
  exists cl, (snd (home_rule_added env homedir w1)).
  split; [exact (basic_system_prologue env w w0 homedir H Hh)|].
  split; [exact Hfd|].
  split; [rewrite Hl; unfold w1; rewrite El, Hw0; reflexivity|].
  split; [rewrite Hc; unfold w1; rewrite Ec, Hw0; reflexivity|].
  exact Ht.
Qed.

Lemma basic_system_home_rule_witness :
  exists cl w4,
    ll_basic_system (test_kernel "6.5.0" (fun p => negb (String.eqb p "/home/user")))
      init_world =
    basic_rest (test_kernel "6.5.0" (fun p => negb (String.eqb p "/home/user"))) w4
    /\ rset_fd w4 = 3
    /\ cfg_lprofile w4 = []
    /\ cfg_homedir w4 = Some "/home/user"
    /\ trace w4 =
         [EvUname 0 {| release := "6.5.0"; version := "#1 SMP" |};
          EvCall (SysCreateRuleset full_ruleset_mask 0) 3]
           ++ [EvCall (SysOpen "/home/user") (-1);
               EvCall (SysAddRule 3 (-1) home_access) (-1)]
           ++ [EvStderr err_basic]
           ++ [EvCall (SysClose (-1)) cl].
Proof.
  exact (basic_system_home_rule
           (test_kernel "6.5.0" (fun p => negb (String.eqb p "/home/user")))
           init_world
           (log (EvUname 0 {| release := "6.5.0"; version := "#1 SMP" |}) init_world)
           "/home/user" eq_refl eq_refl).
Defined.

(** ** What each function may call *)

Lemma evolves_refl (P : event -> Prop) (w : world) : evolves P w w.
Proof.
  split; [reflexivity|]. split; [reflexivity|].
  exists []. split; [symmetry; apply app_nil_r | constructor].
Qed.

Lemma evolves_trans (P : event -> Prop) (w1 w2 w3 : world) :
  evolves P w1 w2 -> evolves P w2 w3 -> evolves P w1 w3.
Proof.
  intros [Hl1 [Hh1 [e1 [Ht1 Hp1]]]] [Hl2 [Hh2 [e2 [Ht2 Hp2]]]].
  split; [congruence|]. split; [congruence|].
  exists (e1 ++ e2). split.
  - rewrite Ht2, Ht1, app_assoc. reflexivity.
  - apply Forall_app. split; assumption.
Qed.

Lemma evolves_log (P : event -> Prop) (e : event) (w : world) :
  P e -> evolves P w (log e w).
Proof.
  intros He. split; [reflexivity|]. split; [reflexivity|].
  exists [e]. split; [reflexivity|]. constructor; [exact He | constructor].
Qed.

Lemma evolves_weaken (P Q : event -> Prop) (w w' : world) :
  (forall e, P e -> Q e) -> evolves P w w' -> evolves Q w w'.
Proof.
  intros HPQ [Hl [Hh [evs [Ht Hp]]]].
  split; [exact Hl|]. split; [exact Hh|].
  exists evs. split; [exact Ht|].
  apply Forall_impl with (P := P); assumption.
Qed.

(** Calls outside [ok] do not show in a view that only looks at them. *)
Lemma collect_unchanged {A} (ok : call -> bool) (f : call -> Z -> option A)
      (w w' : world) :
  evolves (calls_only ok) w w' ->
  (forall c r, ok c = true -> f c r = None) ->
  collect f (trace w') = collect f (trace w).
Proof.
  intros [_ [_ [evs [Ht Hp]]]] Hf. rewrite Ht, collect_app.
  assert (Hn : collect f evs = []).
  { clear Ht. induction Hp as [|e evs He _ IH]; [reflexivity|].
    change (e :: evs) with ([e] ++ evs). rewrite collect_app, IH, app_nil_r. destruct e as [| c r | |]; try reflexivity.
    cbn. rewrite (Hf c r He). reflexivity. }
  rewrite Hn. apply app_nil_r.
Qed.

Section Within.

Context {uapi : LandlockUapi}.
Variable env : kernel.
Variable ok : call -> bool.

Lemma within_bind {A B} (m : M A) (k : A -> M B) :
  runs_within (calls_only ok) m ->
  (forall a, runs_within (calls_only ok) (k a)) ->
  runs_within (calls_only ok) (bind m k).
Proof.
  intros Hm Hk w. specialize (Hm w). unfold bind.
  destruct (m w) as [a w1| |]; try exact Hm.
  apply (evolves_trans _ w w1); [exact Hm | apply Hk].
Qed.

Lemma within_ret {A} (a : A) : runs_within (calls_only ok) (ret a).
Proof. intros w. apply evolves_refl. Qed.

Lemma within_stderr (msg : string) :
  runs_within (calls_only ok) (fprintf_stderr msg).
Proof. intros w. apply evolves_log. exact I. Qed.

Lemma within_errExit {A} (msg : string) :
  runs_within (calls_only ok) (errExit (A := A) msg).
Proof. intros w. apply evolves_log. exact I. Qed.

Lemma within_syscall (c : call) :
  ok c = true -> runs_within (calls_only ok) (syscall env c).
Proof. intros Hc w. apply evolves_log. exact Hc. Qed.

Lemma within_old_kernel : runs_within (calls_only ok) (old_kernel env).
Proof.
  intros w.
  destruct (old_kernel_cases env w)
    as [[u [o [E _]]] | [[rv [u E]] | [u [m E]]]]; rewrite E; cbn [final logs fold_left].
  - apply evolves_log. exact I.
  - apply (evolves_trans _ w (log (EvUname rv u) w)); apply evolves_log; exact I.
  - apply (evolves_trans _ w (log (EvUname 0 u) w)); apply evolves_log; exact I.
Qed.

Hypothesis Hrule : forall c, rule_call c = true -> ok c = true.

Lemma within_ensure : runs_within (calls_only ok) (ensure_ruleset env).
Proof.
  intros w. rewrite ensure_ruleset_run. cbn [final]. unfold ensured.
  destruct (rset_fd w =? -1); [|apply evolves_refl].
  split; [reflexivity|]. split; [reflexivity|].
  eexists. split; [reflexivity|]. constructor; [|constructor].
  apply Hrule. reflexivity.
Qed.

Lemma within_helper (m : Z) (path : string) :
  runs_within (calls_only ok) (ll_helper env m path).
Proof.
  unfold ll_helper. apply within_bind; [apply within_old_kernel|]. intros old.
  destruct (negb (old =? 0)).
  - apply within_bind; [apply within_stderr | intros; apply within_ret].
  - apply within_bind; [apply within_ensure|]. intros _.
    apply within_bind; [apply within_syscall, Hrule; reflexivity|]. intros pfd.
    apply within_bind; [intros w; apply evolves_refl|]. intros fd.
    apply within_bind; [apply within_syscall, Hrule; reflexivity|]. intros r.
    apply within_bind; [apply within_syscall, Hrule; reflexivity|]. intros _.
    apply within_ret.
Qed.

Lemma within_or_chain (cs : list (M Z)) :
  Forall (runs_within (calls_only ok)) cs ->
  runs_within (calls_only ok) (or_chain cs).
Proof.
  induction 1 as [|c cs Hc _ IH]; cbn [or_chain].
  - apply within_ret.
  - apply within_bind; [exact Hc|]. intros r.
    destruct (negb (r =? 0)); [apply within_ret | exact IH].
Qed.

Lemma within_basic_chain (rundir : string) :
  Forall (runs_within (calls_only ok)) (basic_chain env rundir).
Proof. unfold basic_chain. repeat constructor; apply within_helper. Qed.

Lemma within_entry (m : Z) (fname : string) (rest : M unit) :
  (forall p, ok (SysAccess p) = true) ->
  runs_within (calls_only ok) rest ->
  runs_within (calls_only ok) (walk_entry env (ll_helper env m) fname rest).
Proof.
  intros Hacc Hrest. unfold walk_entry.
  apply within_bind; [apply within_syscall, Hacc|]. intros a.
  apply within_bind; [|intros _; exact Hrest].
  destruct (a =? 0); [|apply within_ret].
  apply within_bind; [apply within_helper|]. intros r.
  destruct (negb (r =? 0)); [apply within_stderr | apply within_ret].
Qed.

Lemma within_walk (l : list string) :
  (forall p, ok (SysAccess p) = true) ->
  runs_within (calls_only ok) (ll_restrict_walk env l).
Proof.
  intros Hacc. induction l as [|d l IH]; cbn [ll_restrict_walk].
  - apply within_ret.
  - destruct (dispatch env d) as [[[fname|] fnc]|] eqn:Hd.
    + destruct (dispatch_helper env d _ fnc Hd) as [m Hm]. subst fnc.
      apply within_entry; assumption.
    + destruct (dispatch_helper env d _ fnc Hd) as [m Hm]. subst fnc.
      intros w. apply (within_entry m _ _ Hacc IH).
    + intros w. apply evolves_refl.
Qed.

End Within.

(** X10.  However [ll_basic_system] ends (return, exit or abort), it has
    left [cfg] alone and, [uname] apart, made no call besides creating the
    ruleset, [open], [ll_add_rule], [close], [getuid], [asprintf] and
    [free]: it never probes a path with [access] and never restricts the
    process. *)
Theorem basic_system_only_accumulates {uapi : LandlockUapi} (env : kernel)
        (w : world) :
  evolves (calls_only baseline_call) w (final (ll_basic_system env w))
  /\ restrict_calls (trace (final (ll_basic_system env w))) = restrict_calls (trace w)
  /\ probed_paths (trace (final (ll_basic_system env w))) = probed_paths (trace w).
Proof.
  assert (Hr : forall c, rule_call c = true -> baseline_call c = true)
    by (intros c; destruct c; cbn; auto).
  assert (H : runs_within (calls_only baseline_call) (ll_basic_system env)).
  { unfold ll_basic_system. apply within_bind; [apply within_old_kernel|].
    intros old. destruct (negb (old =? 0)).
    - apply within_bind; [apply within_stderr | intros; apply within_ret].
    - apply within_bind; [apply within_ensure; exact Hr|]. intros _ w1.
      destruct (cfg_homedir w1) as [homedir|]; [|apply evolves_refl].
      revert w1.
      apply within_bind; [apply within_syscall; reflexivity|]. intros home_fd.
      apply within_bind; [intros ?; apply evolves_refl|]. intros fd.
      apply within_bind; [apply within_syscall; reflexivity|]. intros r.
      apply within_bind;
        [destruct (negb (r =? 0)); [apply within_stderr | apply within_ret]|].
      intros _.
      apply within_bind; [apply within_syscall; reflexivity|]. intros _.
      apply within_bind; [apply within_syscall; reflexivity|]. intros uid.
      apply within_bind; [apply within_syscall; reflexivity|]. intros a.
      destruct (a =? -1); [apply within_errExit|].
      apply within_bind;
        [|intros; apply within_bind;
                    [apply within_syscall; reflexivity | intros; apply within_ret]].
      unfold basic_rules.
      apply within_bind;
        [apply within_or_chain, within_basic_chain; exact Hr|].
      intros failed. destruct failed; [apply within_stderr | apply within_ret]. }
  split; [apply H|]. split.
  - apply (collect_unchanged baseline_call _ w _ (H w)).
    intros c r; destruct c; cbn; congruence.
  - apply (collect_unchanged baseline_call _ w _ (H w)).
    intros c r; destruct c; cbn; congruence.
Qed.

(** X11.  However [ll_restrict] ends, it has left [cfg] alone, directive
    list included, and has neither allocated nor asked for the user id: its
    calls are [uname], [access], the helpers' four, [prctl] and
    [landlock_restrict_self]. *)
Theorem restrict_leaves_cfg {uapi : LandlockUapi} (env : kernel)
        (flags : Z) (w : world) :
  evolves (calls_only restrict_call) w (final (ll_restrict env flags w)).
Proof.
  assert (Hr : forall c, rule_call c = true -> restrict_call c = true)
    by (intros c; destruct c; cbn; auto).
  revert w. change (runs_within (calls_only restrict_call) (ll_restrict env flags)).
  unfold ll_restrict. apply within_bind; [apply within_old_kernel|].
  intros old. destruct (negb (old =? 0)).
  - apply within_bind; [apply within_stderr | intros; apply within_ret].
  - apply within_bind.
    + intros w. apply (within_walk env restrict_call Hr); reflexivity.
    + intros _. unfold ll_restrict_commit.
      apply within_bind; [intros ?; apply evolves_refl|]. intros fd.
      destruct (fd =? -1); [apply within_ret|].
      apply within_bind; [apply within_syscall; reflexivity|]. intros _.
      apply within_bind; [apply within_syscall; reflexivity|]. intros result.
      destruct (negb (result =? 0)); [apply within_ret|].
      apply within_bind; [apply within_syscall; reflexivity | intros; apply within_ret].
Qed.


(** ** [ll_restrict] with nothing to restrict *)




(** ** The baseline when every rule is accepted *)


Section Accepted.

Context {uapi : LandlockUapi}.
Variable env : kernel.
Variable u : utsname.
Hypothesis Hsteady : steady_supported env u.
Hypothesis Haccept : forall t fd p m, k_call env t (SysAddRule fd p m) = 0.



End Accepted.



